(* ===== verification/_CoqProject ===== *)
-Q . S2P
Prelude.v
JsString.v
JsValue.v
Vendor.v
Calls.v
Handlers.v
Identify.v
UserObject.v
Positional.v
Intended.v
Config.v
Plugin.v
Bounds.v
Replay.v
Session.v
Loop.v
Host.v
