(* ===== verification/Prelude.v ===== *)
(** * A verification development of the Countly analytics plugin

    Repository: [src/packages/analytics-plugin-countly/src/node.js], the
    server-side Countly plugin of the [analytics] dispatch library.  The
    plugin is one factory, [countlyPlugin(pluginConfig)], returning an object
    whose handlers ([initialize], [page], [track], [identify]) and auxiliary
    [methods] ([enableErrorTracking], [enableSessionTracking],
    [reportTrace]) translate the host's generic events into calls of the
    process-wide Countly SDK singleton ([countly-sdk-nodejs]), loaded at
    module load time unless [process.browser] is set.

    ** How the parts interact

    The host framework calls a handler with a plain JavaScript object; the
    handler destructures it, may throw (a configuration [Error], a
    [TypeError] on a nullish payload, a [ReferenceError] from the implicit
    global [trait] in strict mode) and otherwise issues calls to the SDK,
    in program order.  An exception thrown by the SDK propagates unchanged.
    The only state is the SDK's (owned by the vendor) and, in sloppy mode,
    the global variable [trait] that the [for (trait in traits)] loop of
    [identify] creates.  A handler never looks at what an SDK call
    returns, only at whether it throws.

    ** Files, in dependency order (claims C1-C30 by file)

    - [Prelude] (this file): the state-and-exception monad [st] in which
      the handlers are written (an stdpp [MBind] instance, so they read in
      [x ← m ; k] notation) with its laws; ordered association lists
      ([alookup], [aupdate]), the representation of JavaScript objects,
      and the list and string lemmas the components share.
    - [JsString]: JavaScript strings as UTF-16 code units.  A string
      value is kept as the WTF-8 bytes of its text; [code_points] decodes
      them, [utf16] splits a code point into code units (the surrogate
      arithmetic with [Z.shiftr] and [Z.land]), [code_units] is the string
      as JavaScript indexes it and [encode_cp] the bytes of one unit.
    - [JsValue]: the JavaScript values the plugin handles ([jsval]), the
      exceptions ([exn]), and the fragment of ECMAScript the source relies
      on: [ToBoolean] ([truthy]), [typeof] ([typeof_]), [ToString] and
      [ToPropertyKey] ([to_string]), canonical array indices
      ([array_index]), property read [[Get]] on every kind of value,
      including the built-in prototypes with their methods and their
      constructors ([get_prop]), property write [[Set]] on ordinary
      objects ([set_prop], with the [__proto__] setter), and the [for-in]
      key order ([for_in_keys]).
    - [Vendor]: lines 1-4 and every [Countly.f(...)] call.  It holds the
      calls the SDK can receive ([countly_call]) and the client interface
      as a typeclass ([CountlyClient]).  Its instances are the recording
      client of the spec's design note ([recorder]) and a client that
      throws ([thrower]).  It also holds the world the handlers run in
      ([world]: SDK state and the global [trait] binding) and [countly],
      the call [Countly.f(arg)], including the browser case where
      [Countly] is [undefined].
    - [Calls]: a program logic over the recorder's runs.  [post P Q m]
      says every call [m] appends satisfies [P] and its result satisfies
      [Q].  [calls_within n m] says [m] appends at most [n] calls.  Each
      has one rule per construct, and hint databases [post] and [within].
    - [Handlers]: lines 26-55 and 77-101, that is [initialize], [page],
      [track] and the three [methods], as computations in the monad.
      C6, C7, C18-C25 give the result of every branch: the configuration
      errors come before any SDK call, and a missing [config] is a
      [TypeError] instead (C19); [debug] is defaulted; the exact call of
      each handler; the [TypeError] paths; SDK exceptions propagate; in a
      browser bundle every SDK call throws.
    - [Identify]: lines 57-76, that is [identify], its loop
      ([identify_loop], [identify_step]) and the assignment to the
      undeclared [trait] ([assign_trait]).  [user_spec] states the user
      object declaratively; [identify_run] composes the handler.
      C1 ([identify_refines_spec]) is the refinement: [identify] sends
      [change_id], then [user_details(user_spec traits)].  C2 is the
      strict-mode [ReferenceError].  C8 and C9 compare the code's
      classification ([code_known], an index read of [allowedProps])
      with the spec's ([spec_known]).  C5: on an ordinary traits object
      the code sends the whole object under [custom], field names
      included.  C17 is the falsy-traits case.
    - [UserObject]: the shape [user_wf] of the user object, which every
      loop iteration preserves.  C13: every [user_details] call carries
      such an object, in every runtime.  C12 is liveness: where the
      assignment to [trait] succeeds, [identify] completes on any traits.
    - [Positional]: traits given as an array or a string, whose [for-in]
      keys are indices: [positional vals] files the first eight values
      under the field names and the others under [custom] by index.
      C15: [identify] on every array; C16: on every string, by UTF-16
      code unit.
    - [Intended]: the spec's [identify] ([identify_intended], with the
      loop variable declared and membership of the name) and the user
      object it asks for ([user_intended]), with the lemma that this
      object equals the code's exactly when no trait is a field name or a
      key the code recognises.  C10: on every payload (keys enumerated
      once, no [__proto__] key) the two handlers send the same calls if
      and only if that holds.
    - [Config]: the spec's [debug ?? false] ([nullish_or],
      [init_options_spec]) and the configurations the JSDoc comment of
      lines 6-20 documents ([documented_config], [doc_example]).  C28:
      the code's [debug || false] agrees with the spec exactly on a
      truthy, nullish or [false] debug; C29: on a documented
      configuration [initialize] fails exactly on an empty [app_key] or
      [server_url] and otherwise sends the spec's options.
    - [Plugin]: lines 21-24, [countlyPlugin] as a record of operations
      ([plugin]), and line 105, its [export default] ([default_export]).
      The host is not in this repository, so a host [session] is
      modelled from the spec: initialize with the plugin's [config], then
      the events in order.  C11: on the recording client a session's log
      is empty or starts with the one [init], which is never repeated.
      C26: a missing [app_key] stops the session before any SDK call.
    - [Bounds]: C14: a session of [n] events makes at most [2 n + 1] SDK
      calls, in every runtime and for every event.
    - [Replay]: [replay] feeds a call list to a client in order and stops
      at the first throw.  [replays m] says every client run of [m] is the
      replay of [m]'s recorder log; it is closed under the monad and the
      SDK call.  C4: every host session, against any client, is the
      replay of its recorder log.
    - [Session]: the list of calls section 4 of the spec asks for
      ([event_calls], [init_call], with the spec's user object and
      [debug ?? false]) and the valid configurations and events of its
      section 3 ([config_ok], [event_ok]), on the inputs where the code's
      classification and default agree with the spec's.  C3: such a
      session sends exactly the spec's calls, in order, to any client.
    - [Loop]: lines 66-73 again, as a transition system: [loop_step], one
      transition per iteration and per branch of the loop body, on
      configurations [loop_conf].  C27: an invariant by induction on
      runs (every intermediate user object keeps its shape and only the
      strict-mode [ReferenceError] can end the loop).
    - [Host]: the host's lifecycle of the plugin, from the spec, as a
      labelled transition system [host_step] over [phase] (registered,
      ready, aborted) and the world: initialize once, abort on an
      exception, then dispatch events in any order, an event's exception
      going back to its caller.  C30: the spec's invariant (section 3) in
      every reachable state: no SDK call before [init], and [init] once.

    ** Modelling choices, bounds and fuel
    - Numbers are integers ([Z]).  The plugin only tests numbers for
      truthiness and converts the array length [8] to a key, so
      fractional numbers and NaN are not represented.
    - Strings are Stdlib [string] holding WTF-8 bytes: keys compare byte
      for byte (WTF-8 is injective), and [length], index keys and [s[i]]
      count UTF-16 code units ([JsString]).  A byte sequence that is not
      WTF-8 decodes with U+FFFD; no value the plugin builds is one.
    - Objects are ordered association lists of own enumerable data
      properties, in creation order.  User objects are assumed to have
      [Object.prototype] as prototype and no accessors.
    - Array indices are bounded by [2^32 - 1] ([array_index_bound]), as
      in ECMAScript.
    - There is no fuel.  Every handler is straight-line code and the only
      loop iterates over a finite key list, so every definition is a
      structural [Fixpoint] and total; liveness (C12) is a theorem that
      the handler returns, not a fuel bound.
    - The SDK's answers are modelled as the typeclass [CountlyClient], a
      state and a transition per call that may throw.  C3 and C4 hold for
      every instance.

    ** Not modelled
    - The Countly SDK itself (network, batching, sessions): an external
      library; only its interface is modelled.
    - [require('countly-sdk-nodejs')]: module loading; the load-time
      choice on [process.browser] is the [rt_browser] flag.
    - The host dispatch framework: only its use of the plugin, from the
      spec (a [session], and the lifecycle of [Host]); it is not code of
      this repository, so its other parts (registration, queueing,
      other plugins) have no source to model.
    - Objects with accessors or with a prototype other than
      [Object.prototype] as traits: [for-in] would then enumerate
      inherited keys and a read could run code; the spec types traits as
      a plain mapping.
    - Numbers other than integers (fractions, NaN, -0): the code never
      computes with a number; it tests [debug] and the configuration
      strings for truthiness, forwards payload numbers unchanged and
      turns only [allowedProps.length], [8], into a key.  The one
      behaviour lost is that a NaN [app_key], [server_url] or [debug] is
      falsy like [0].
*)

From stdpp Require Export base list strings relations.
From Stdlib Require Export ZArith Lia.

(** ** The state-and-exception monad *)

(** A computation over a world [W] that either completes with a value
    ([inr a]) or throws ([inl e]); the world is returned in both cases,
    because side effects done before a [throw] are not undone. *)
Definition st (W E A : Type) : Type := W -> W * (E + A).

#[export] Instance st_ret {W E} : MRet (st W E) := fun A a w => (w, inr a).
#[export] Instance st_bind {W E} : MBind (st W E) := fun A B f m w =>
  match m w with
  | (w', inl e) => (w', inl e)
  | (w', inr a) => f a w'
  end.

Definition st_throw {W E A} (e : E) : st W E A := fun w => (w, inl e).
Definition st_get {W E} : st W E W := fun w => (w, inr w).
Definition st_put {W E} (w : W) : st W E unit := fun _ => (w, inr tt).

Declare Scope st_scope.
Delimit Scope st_scope with st.
Notation "'throw' e" := (st_throw e) (at level 10) : st_scope.
Notation "m ;; k" := (_ ← m ; k) (at level 100, right associativity,
  only parsing) : st_scope.

(** ** Ordered association lists: JavaScript objects' own properties *)

Section Assoc.
Context {K V : Type} `{EqDecision K}.

(** [o[k]] on own properties. *)
Fixpoint alookup (k : K) (ps : list (K * V)) : option V :=
  match ps with
  | [] => None
  | (k', v) :: ps' => if decide (k = k') then Some v else alookup k ps'
  end.

(** [o[k] = v] on an own data property: replaced in place when present,
    appended (creation order) otherwise. *)
Fixpoint aupdate (k : K) (v : V) (ps : list (K * V)) : list (K * V) :=
  match ps with
  | [] => [(k, v)]
  | (k', v') :: ps' =>
      if decide (k = k') then (k', v) :: ps' else (k', v') :: aupdate k v ps'
  end.
End Assoc.

Section StLaws.
Context {W E : Type}.

Lemma st_bind_ret_r {A} (m : st W E A) w : (m ≫= mret) w = m w.
Proof. unfold mbind, mret, st_bind, st_ret. by destruct (m w) as [? [?|?]]. Qed.

Lemma st_bind_assoc {A B C} (m : st W E A) (f : A -> st W E B)
      (g : B -> st W E C) w :
  ((m ≫= f) ≫= g) w = (m ≫= (fun a => f a ≫= g)) w.
Proof. unfold mbind, mret, st_bind, st_ret. by destruct (m w) as [? [?|?]]. Qed.

End StLaws.

Section AssocLemmas.
Context {K V : Type} `{EqDecision K}.
Implicit Types (k : K) (v : V) (ps : list (K * V)).

Lemma alookup_None k ps : alookup k ps = None <-> k ∉ ps.*1.
Proof.
  induction ps as [|[k' v'] ps IH]; cbn.
  - split; [intros _; apply not_elem_of_nil|done].
  - rewrite elem_of_cons. case_decide; [naive_solver|]. rewrite IH. naive_solver.
Qed.

(** The key sequence after a write: unchanged for a present key, the
    new key at the end otherwise. *)
Lemma aupdate_keys k v ps :
  (aupdate k v ps).*1 = if decide (k ∈ ps.*1) then ps.*1 else ps.*1 ++ [k].
Proof.
  induction ps as [|[k' v'] ps IH]; cbn.
  - rewrite decide_False; [done|apply not_elem_of_nil].
  - destruct (decide (k = k')) as [->|Hne]; cbn.
    + rewrite decide_True; [done|by apply elem_of_cons; left].
    + rewrite IH. destruct (decide (k ∈ ps.*1)) as [Hin|Hin].
      * rewrite decide_True; [done|by apply elem_of_cons; right].
      * rewrite decide_False; [done|]. rewrite elem_of_cons. naive_solver.
Qed.

(** A write of a fresh key appends it. *)
Lemma aupdate_fresh k v ps : k ∉ ps.*1 -> aupdate k v ps = ps ++ [(k, v)].
Proof.
  induction ps as [|[k' v'] ps IH]; cbn; [done|].
  rewrite elem_of_cons. intros Hk. rewrite decide_False by naive_solver.
  f_equal. apply IH. naive_solver.
Qed.

Lemma aupdate_NoDup k v ps : NoDup ps.*1 -> NoDup (aupdate k v ps).*1.
Proof.
  intros Hnd. rewrite aupdate_keys. case_decide; [done|].
  apply NoDup_app. split_and!; [done| |apply NoDup_singleton].
  intros x Hx ->%list_elem_of_singleton. done.
Qed.
(** With distinct keys, a listed pair is what the key looks up. *)
Lemma alookup_own k v ps : NoDup ps.*1 -> (k, v) ∈ ps -> alookup k ps = Some v.
Proof.
  induction ps as [|[k' v'] ps IH]; intros Hnd Hin; [by apply not_elem_of_nil in Hin|].
  cbn in Hnd |- *. apply NoDup_cons in Hnd as [Hk Hnd].
  apply elem_of_cons in Hin as [[= -> ->]|Hin]; [by rewrite decide_True|].
  rewrite decide_False; [by apply IH|]. intros ->. apply Hk, list_elem_of_fmap. by exists (k', v).
Qed.
End AssocLemmas.

(** ** Lists *)

(** A filter that keeps every element, or none. *)
Lemma filter_all {A} (P : A -> Prop) `{!forall x, Decision (P x)} (l : list A) :
  (forall x, x ∈ l -> P x) -> filter P l = l.
Proof.
  induction l as [|x l IH]; intros Hl; [done|].
  rewrite filter_cons_True by (apply Hl; left). f_equal. apply IH. intros y Hy. apply Hl. by right.
Qed.

Lemma filter_none {A} (P : A -> Prop) `{!forall x, Decision (P x)} (l : list A) :
  (forall x, x ∈ l -> ~ P x) -> filter P l = [].
Proof.
  induction l as [|x l IH]; intros Hl; [done|].
  rewrite filter_cons_False by (apply Hl; left). apply IH. intros y Hy. apply Hl. by right.
Qed.

(** stdpp's [fmap] on lists is [map]. *)
Lemma map_fmap {A B} (f : A -> B) (l : list A) : map f l = f <$> l.
Proof. induction l as [|x l IH]; [done|]. cbn. by rewrite IH. Qed.

(** ** Strings *)

Lemma string_length_app (s1 s2 : string) :
  String.length (s1 ++ s2)%string = String.length s1 + String.length s2.
Proof. induction s1 as [|a s1 IH]; simpl; [done|by rewrite IH]. Qed.

(** Cancelling a common suffix. *)
Lemma string_app_inv_r (s s1 s2 : string) : (s1 ++ s)%string = (s2 ++ s)%string -> s1 = s2.
Proof.
  revert s2. induction s1 as [|a s1 IH]; intros [|b s2] H; [done| | |].
  1,2: apply (f_equal String.length) in H; rewrite !string_length_app in H; simpl in H; lia.
  simpl in H. injection H as -> H. f_equal. by apply IH.
Qed.

(** Cancelling a common prefix. *)
Lemma string_app_inv_l (p s1 s2 : string) : (p ++ s1)%string = (p ++ s2)%string -> s1 = s2.
Proof. induction p as [|a p IH]; simpl; [done|]. intros H. injection H. apply IH. Qed.
