(* ===== verification/JsString.v ===== *)
(** * JsString: JavaScript strings as UTF-16 code units

    A JavaScript string is a sequence of 16-bit code units; its [length],
    its index keys (those [for-in] enumerates) and [s[i]] count code
    units.  The model keeps a string value as a Stdlib [string] holding
    the WTF-8 encoding of its text (UTF-8, with lone surrogates encoded
    as three bytes), so that property keys are compared byte for byte as
    before.  [code_points] decodes the bytes (an invalid byte reads as
    U+FFFD), [utf16] splits a code point above U+FFFF into its surrogate
    pair, and [code_units] is the string as JavaScript sees it.
    [encode_cp] is the WTF-8 encoding of one code point, used for the
    one-unit strings [s[i]] returns.  [Positional] uses them for traits
    given as a string. *)

From S2P Require Import Prelude.
From Stdlib Require Import Ascii.

Local Open Scope Z_scope.

Definition byte (a : ascii) : Z := Z.of_N (N_of_ascii a).
Definition ascii_of_Z (x : Z) : ascii := ascii_of_N (Z.to_N x).

(** A continuation byte [10xxxxxx]. *)
Definition is_cont (a : ascii) : bool := (0x80 <=? byte a) && (byte a <? 0xC0).

(** A decoded value outside the code point range reads as U+FFFD. *)
Definition checked (c : Z) : Z := if c <=? 0x10FFFF then c else 0xFFFD.

(** WTF-8 decoding: one, two, three or four bytes per code point. *)
Fixpoint code_points (s : string) : list Z :=
  match s with
  | EmptyString => []
  | String a s1 =>
      let b := byte a in
      if b <? 0x80 then b :: code_points s1
      else if (0xC0 <=? b) && (b <? 0xE0) then
        match s1 with
        | String a1 s2 =>
            if is_cont a1 then ((b - 0xC0) * 64 + (byte a1 - 0x80)) :: code_points s2
            else 0xFFFD :: code_points s1
        | EmptyString => [0xFFFD]
        end
      else if (0xE0 <=? b) && (b <? 0xF0) then
        match s1 with
        | String a1 (String a2 s3) =>
            if is_cont a1 && is_cont a2
            then ((b - 0xE0) * 4096 + (byte a1 - 0x80) * 64 + (byte a2 - 0x80)) :: code_points s3
            else 0xFFFD :: code_points s1
        | _ => 0xFFFD :: code_points s1
        end
      else if (0xF0 <=? b) && (b <? 0xF8) then
        match s1 with
        | String a1 (String a2 (String a3 s4)) =>
            if is_cont a1 && is_cont a2 && is_cont a3
            then checked ((b - 0xF0) * 262144 + (byte a1 - 0x80) * 4096 +
                          (byte a2 - 0x80) * 64 + (byte a3 - 0x80)) :: code_points s4
            else 0xFFFD :: code_points s1
        | _ => 0xFFFD :: code_points s1
        end
      else 0xFFFD :: code_points s1
  end.

(** The UTF-16 code units of a code point: itself below U+10000, its
    surrogate pair above. *)
Definition utf16 (c : Z) : list Z :=
  if c <? 0x10000 then [c]
  else [0xD800 + Z.shiftr (c - 0x10000) 10; 0xDC00 + Z.land (c - 0x10000) 0x3FF].

Definition code_units (s : string) : list Z := flat_map utf16 (code_points s).

(** [s.length]. *)
Definition js_length (s : string) : nat := length (code_units s).

(** The WTF-8 bytes of one code point. *)
Definition encode_cp (c : Z) : string :=
  if c <? 0x80 then String (ascii_of_Z c) EmptyString
  else if c <? 0x800 then
    String (ascii_of_Z (0xC0 + Z.shiftr c 6))
      (String (ascii_of_Z (0x80 + Z.land c 0x3F)) EmptyString)
  else if c <? 0x10000 then
    String (ascii_of_Z (0xE0 + Z.shiftr c 12))
      (String (ascii_of_Z (0x80 + Z.land (Z.shiftr c 6) 0x3F))
        (String (ascii_of_Z (0x80 + Z.land c 0x3F)) EmptyString))
  else
    String (ascii_of_Z (0xF0 + Z.shiftr c 18))
      (String (ascii_of_Z (0x80 + Z.land (Z.shiftr c 12) 0x3F))
        (String (ascii_of_Z (0x80 + Z.land (Z.shiftr c 6) 0x3F))
          (String (ascii_of_Z (0x80 + Z.land c 0x3F)) EmptyString))).

(** [s[i]]: the one-unit string of the [i]-th code unit. *)
Definition js_char_at (s : string) (i : nat) : option string :=
  encode_cp <$> code_units s !! i.
