(* ===== verification/JsValue.v ===== *)
(** * JsValue: the JavaScript values and semantics the plugin relies on

    The values a handler of [node.js] receives, builds and passes on, and
    the ECMAScript operations its lines perform on them: [!x] and [x || y]
    ([truthy]), [typeof] ([typeof_]), property keys ([to_string],
    ToPropertyKey), canonical array indices ([array_index]), property
    reads [o[k]] and destructuring ([get_prop]), property writes on
    ordinary objects ([set_prop]) and the key order of [for-in]
    ([for_in_keys]).  Built-in prototypes are modelled by their ES2023
    property names (Node 20): their methods and constructors are [JFun]
    values.  A string value is indexed by UTF-16 code unit, through
    [JsString]. *)

From S2P Require Import Prelude JsString.
From stdpp Require Import sorting.
From Stdlib Require Import DecimalString DecimalN.

Local Open Scope string_scope.

(** ** Values and exceptions *)

(** [JObj] holds the own enumerable data properties of an ordinary object
    in creation order; [JArr] a dense array; [JFun] a function, by name. *)
Inductive jsval : Type :=
| JUndefined
| JNull
| JBool (b : bool)
| JNum (n : Z)
| JStr (s : string)
| JArr (elems : list jsval)
| JObj (props : list (string * jsval))
| JFun (name : string).

(** What a statement can throw: a [TypeError] (reading a property of
    [undefined] or [null]; calling a method of [undefined]), a
    [ReferenceError] naming the unresolvable identifier, an [Error] built
    by [new Error(msg)], or any value thrown by the SDK. *)
Inductive exn : Type :=
| TypeError
| ReferenceError (name : string)
| ErrorMsg (msg : string)
| Upstream (v : jsval).

(** ToBoolean: [if (x)], [!x], [x || y]. *)
Definition truthy (v : jsval) : bool :=
  match v with
  | JUndefined | JNull => false
  | JBool b => b
  | JNum n => negb (Z.eqb n 0)
  | JStr EmptyString => false
  | JStr _ | JArr _ | JObj _ | JFun _ => true
  end.

(** [typeof v]. *)
Definition typeof_ (v : jsval) : string :=
  match v with
  | JUndefined => "undefined"
  | JNull => "object"
  | JBool _ => "boolean"
  | JNum _ => "number"
  | JStr _ => "string"
  | JArr _ | JObj _ => "object"
  | JFun _ => "function"
  end.

(** [x || y]: [x] when it is truthy, [y] otherwise. *)
Definition js_or (x y : jsval) : jsval := if truthy x then x else y.

(** ** Number to string and canonical array indices *)

Definition N_to_string (n : N) : string := NilEmpty.string_of_uint (N.to_uint n).
Definition Z_to_string (z : Z) : string := NilEmpty.string_of_int (Z.to_int z).

(** ToString, as used by ToPropertyKey and by [Array.prototype.join]
    (which prints [undefined] and [null] elements as empty strings). *)
Fixpoint to_string (v : jsval) : string :=
  match v with
  | JUndefined => "undefined"
  | JNull => "null"
  | JBool true => "true"
  | JBool false => "false"
  | JNum n => Z_to_string n
  | JStr s => s
  | JArr l =>
      String.concat ","
        (map (fun e => match e with JUndefined | JNull => "" | _ => to_string e end) l)
  | JObj _ => "[object Object]"
  | JFun name => "function " ++ name ++ "() { [native code] }"
  end.

(** 2^32 - 1: an array index is below it. *)
Definition array_index_bound : N := 4294967295.

(** A string [P] is an array index when [ToString(ToUint32(P)) = P] and
    [ToUint32(P) <> 2^32 - 1]: the canonical decimal spelling (no sign,
    no leading zero, no exponent) of a number below [2^32 - 1]. *)
Definition array_index (s : string) : option N :=
  match NilEmpty.uint_of_string s with
  | Some d =>
      let n := N.of_uint d in
      if String.eqb (N_to_string n) s && (n <? array_index_bound)%N
      then Some n else None
  | None => None
  end.

Definition is_array_index (s : string) : bool :=
  match array_index s with Some _ => true | None => false end.

(** ** Built-in prototypes (ES2023, Node 20), by their string-keyed names *)

Definition object_proto_names : list string :=
  ["constructor"; "__defineGetter__"; "__defineSetter__"; "hasOwnProperty";
   "__lookupGetter__"; "__lookupSetter__"; "isPrototypeOf";
   "propertyIsEnumerable"; "toString"; "valueOf"; "toLocaleString"].

Definition array_proto_names : list string :=
  ["constructor"; "at"; "concat"; "copyWithin"; "fill"; "find"; "findIndex";
   "findLast"; "findLastIndex"; "lastIndexOf"; "pop"; "push"; "reverse";
   "shift"; "unshift"; "slice"; "sort"; "splice"; "includes"; "indexOf";
   "join"; "keys"; "entries"; "values"; "forEach"; "filter"; "flat";
   "flatMap"; "map"; "every"; "some"; "reduce"; "reduceRight";
   "toLocaleString"; "toString"; "toReversed"; "toSorted"; "toSpliced";
   "with"].

Definition string_proto_names : list string :=
  ["constructor"; "anchor"; "at"; "big"; "blink"; "bold"; "charAt";
   "charCodeAt"; "codePointAt"; "concat"; "endsWith"; "fontcolor";
   "fontsize"; "fixed"; "includes"; "indexOf"; "isWellFormed"; "italics";
   "lastIndexOf"; "link"; "localeCompare"; "match"; "matchAll"; "normalize";
   "padEnd"; "padStart"; "repeat"; "replace"; "replaceAll"; "search";
   "slice"; "small"; "split"; "strike"; "sub"; "substr"; "substring"; "sup";
   "startsWith"; "toString"; "toWellFormed"; "trim"; "trimStart";
   "trimLeft"; "trimEnd"; "trimRight"; "toLocaleLowerCase";
   "toLocaleUpperCase"; "toLowerCase"; "toUpperCase"; "valueOf"].

Definition number_proto_names : list string :=
  ["constructor"; "toExponential"; "toFixed"; "toPrecision"; "toString";
   "valueOf"; "toLocaleString"].

Definition boolean_proto_names : list string :=
  ["constructor"; "toString"; "valueOf"].

Definition function_proto_names : list string :=
  ["constructor"; "apply"; "bind"; "call"; "toString"].

(** A property inherited from a prototype whose own names are [names],
    whose [constructor] is the built-in function [ctor] ([Array],
    [String], ...) and whose prototype is [Object.prototype]: the
    [__proto__] accessor of [Object.prototype] (returning the prototype
    object [proto]), the constructor, a built-in method, or [undefined]. *)
Definition proto_get (ctor : string) (names : list string) (proto : jsval) (k : string) : jsval :=
  if String.eqb k "__proto__" then proto
  else if String.eqb k "constructor" then JFun ctor
  else if decide (k ∈ (names ++ object_proto_names)%list) then JFun k
  else JUndefined.

(** [a[k]] on an array: an index below the length reads the element, an
    index beyond it reads [undefined] (no prototype has index keys),
    [length] is the own length, every other key goes to
    [Array.prototype], itself an empty array. *)
Definition array_get (l : list jsval) (k : string) : jsval :=
  match array_index k with
  | Some i => default JUndefined (l !! N.to_nat i)
  | None =>
      if String.eqb k "length" then JNum (Z.of_nat (length l))
      else proto_get "Array" array_proto_names (JArr []) k
  end.

(** [s[k]] on a string primitive: its code units (as one-unit strings),
    its length in code units, then [String.prototype]. *)
Definition string_get (s : string) (k : string) : jsval :=
  match array_index k with
  | Some i =>
      match js_char_at s (N.to_nat i) with
      | Some c => JStr c
      | None => JUndefined
      end
  | None =>
      if String.eqb k "length" then JNum (Z.of_nat (js_length s))
      else proto_get "String" string_proto_names (JObj []) k
  end.

(** [v[k]] (and the destructuring [const { k } = v]): a [TypeError] on
    [undefined] and [null], the own property then the prototype chain on
    everything else.  Of a function only the own [name] is modelled. *)
Definition get_prop (v : jsval) (k : string) : exn + jsval :=
  match v with
  | JUndefined | JNull => inl TypeError
  | JBool _ => inr (proto_get "Boolean" boolean_proto_names (JObj []) k)
  | JNum _ => inr (proto_get "Number" number_proto_names (JObj []) k)
  | JStr s => inr (string_get s k)
  | JArr l => inr (array_get l k)
  | JObj ps =>
      inr (match alookup k ps with
           | Some x => x
           | None => proto_get "Object" [] (JObj []) k
           end)
  | JFun name =>
      inr (if String.eqb k "name" then JStr name
           else proto_get "Function" function_proto_names (JFun "") k)
  end.

(** [o[k] = v] on an ordinary object with [Object.prototype] in its chain:
    an own property is overwritten in place; a new key is appended,
    except [__proto__], whose inherited setter changes the prototype and
    creates no own property. *)
Definition set_prop (ps : list (string * jsval)) (k : string) (v : jsval)
  : list (string * jsval) :=
  match alookup k ps with
  | Some _ => aupdate k v ps
  | None => if String.eqb k "__proto__" then ps else aupdate k v ps
  end.

(** ** The key order of [for-in] *)

Definition index_of (k : string) : N := default 0%N (array_index k).
Definition index_le (k1 k2 : string) : Prop := (index_of k1 <= index_of k2)%N.
#[export] Instance index_le_dec : RelDecision index_le :=
  fun k1 k2 => decide (index_of k1 <= index_of k2)%N.

Definition index_keys (ks : list string) : list string :=
  merge_sort index_le (filter (fun k => is_Some (array_index k)) ks).
Definition string_keys (ks : list string) : list string :=
  filter (fun k => ¬ is_Some (array_index k)) ks.

(** Keys printed for the indices [0 .. n-1]. *)
Definition index_range (n : nat) : list string :=
  map (fun i => N_to_string (N.of_nat i)) (seq 0 n).

(** [for (k in v)] over a value without enumerable inherited properties:
    [OrdinaryOwnPropertyKeys] (array indices ascending, then the other
    string keys in creation order) for an object, the indices for an
    array or a string, nothing for the other primitives and functions. *)
Definition for_in_keys (v : jsval) : list string :=
  match v with
  | JObj ps => (index_keys ps.*1 ++ string_keys ps.*1)%list
  | JArr l => index_range (length l)
  | JStr s => index_range (js_length s)
  | _ => []
  end.

(** ** Lemmas *)

(** Printing an index and parsing it back gives the index. *)
Lemma array_index_N_to_string n :
  (n < array_index_bound)%N -> array_index (N_to_string n) = Some n.
Proof.
  intros Hn. unfold array_index, N_to_string.
  rewrite NilEmpty.usu, Unsigned.of_to, String.eqb_refl.
  by rewrite (proj2 (N.ltb_lt _ _) Hn).
Qed.

(** Every string the parser accepts is the printed form of its index. *)
Lemma array_index_Some s n :
  array_index s = Some n -> s = N_to_string n /\ (n < array_index_bound)%N.
Proof.
  unfold array_index. destruct (NilEmpty.uint_of_string s) as [d|]; [|done].
  destruct (String.eqb_spec (N_to_string (N.of_uint d)) s) as [Heq|];
    destruct (N.ltb_spec (N.of_uint d) array_index_bound); cbn; try done.
  intros [= <-]. done.
Qed.

Lemma N_to_string_inj n m : N_to_string n = N_to_string m -> n = m.
Proof.
  unfold N_to_string. intros H.
  apply (f_equal NilEmpty.uint_of_string) in H. rewrite !NilEmpty.usu in H.
  injection H as H. by apply Unsigned.to_uint_inj.
Qed.

(** Reading the index [i] of an array reads its element [i]. *)
Lemma array_get_index l i :
  (N.of_nat i < array_index_bound)%N ->
  array_get l (N_to_string (N.of_nat i)) = default JUndefined (l !! i).
Proof. intros H. unfold array_get. by rewrite array_index_N_to_string, Nat2N.id. Qed.

(** A write of a fresh key other than [__proto__] appends it. *)
Lemma set_prop_fresh ps k v :
  k ∉ ps.*1 -> k <> "__proto__" -> set_prop ps k v = (ps ++ [(k, v)])%list.
Proof.
  intros Hk Hp. unfold set_prop. rewrite (proj2 (alookup_None k ps) Hk).
  destruct (String.eqb_spec k "__proto__"); [done|]. by apply aupdate_fresh.
Qed.

(** Well-formed objects (no duplicate own key) stay well formed. *)
Lemma set_prop_NoDup ps k v : NoDup ps.*1 -> NoDup (set_prop ps k v).*1.
Proof.
  intros H. unfold set_prop.
  destruct (alookup k ps); [by apply aupdate_NoDup|].
  destruct (String.eqb k "__proto__"); [done|by apply aupdate_NoDup].
Qed.

