(* ===== verification/Vendor.v ===== *)
(** * Vendor: the Countly SDK as the plugin sees it

    [node.js] lines 1-4 load [countly-sdk-nodejs] into the module variable
    [Countly] unless [process.browser] is set, in which case [Countly]
    stays [undefined].  Every handler then calls one of eight SDK
    functions.  The SDK is not code of this repository: it is modelled by
    its interface, the typeclass [CountlyClient] (a state and a transition
    per call, which may throw), as the spec's design note asks, with two
    instances: [recorder], the recording client that logs every call, and
    [thrower], a client that throws a given value on the calls a
    predicate selects and logs the others. *)

From S2P Require Import Prelude JsValue.

(** ** The SDK calls the plugin makes *)

Inductive countly_call : Type :=
| CInit (cfg : jsval)            (** [Countly.init(cfg)] *)
| CTrackView (path : jsval)      (** [Countly.track_view(path)] *)
| CAddEvent (ev : jsval)         (** [Countly.add_event(ev)] *)
| CChangeId (id : jsval)         (** [Countly.change_id(id)] *)
| CUserDetails (user : jsval)    (** [Countly.user_details(user)] *)
| CTrackErrors                   (** [Countly.track_errors()] *)
| CTrackSessions                 (** [Countly.track_sessions()] *)
| CReportTrace (trace : jsval).  (** [Countly.report_trace(trace)] *)

(** The client interface: the SDK's state [S] and the effect of one call,
    [Some v] when the SDK throws [v]. *)
Class CountlyClient (S : Type) :=
  countly_handle : countly_call -> S -> S * option jsval.

(** ** The world a handler runs in *)

(** The execution context fixed at load time: whether the module was
    loaded in a browser bundle ([process.browser]), and whether its code is
    strict (an ES module, or a bundle that emits ["use strict"]). *)
Record runtime : Type := Runtime { rt_browser : bool; rt_strict : bool }.

(** The SDK's state, and the global binding of the identifier [trait]
    ([None] when no global variable of that name exists). *)
Record world (S : Type) : Type := World { w_sdk : S; w_trait : option jsval }.
Arguments World {S} _ _.
Arguments w_sdk {S} _.
Arguments w_trait {S} _.

(** Handlers are computations over the world that may throw an [exn]. *)
Abbreviation M S := (st (world S) exn).

(** ** The recording client *)

(** The log of the calls received, oldest first; it never throws. *)
#[export] Instance recorder : CountlyClient (list countly_call) :=
  fun c log => (log ++ [c], None).

(** A client that throws [v] on the calls [fails] selects and logs the
    others. *)
Definition thrower (fails : countly_call -> bool) (v : jsval)
  : CountlyClient (list countly_call) :=
  fun c log => if fails c then (log, Some v) else (log ++ [c], None).

Section Calls.
Context {S : Type} `{!CountlyClient S}.

(** [const { k } = v] / [v[k]]: a read that may throw, with no effect. *)
Definition get (v : jsval) (k : string) : M S jsval := fun w => (w, get_prop v k).

(** [Countly.f(arg)]: in a browser [Countly] is [undefined] and reading
    its member throws a [TypeError] before anything is sent; otherwise
    the SDK handles the call and an exception it throws propagates. *)
Definition countly (rt : runtime) (c : countly_call) : M S unit :=
  fun w =>
    if rt_browser rt then (w, inl TypeError)
    else let '(s', r) := countly_handle c (w_sdk w) in
         (World s' (w_trait w),
          match r with None => inr tt | Some v => inl (Upstream v) end).

Lemma countly_browser rt c w :
  rt_browser rt = true -> countly rt c w = (w, inl TypeError).
Proof. intros H. unfold countly. by rewrite H. Qed.

End Calls.

Lemma countly_recorder rt c log tr :
  rt_browser rt = false ->
  countly rt c (World log tr) = (World (log ++ [c]) tr, inr tt).
Proof. intros H. unfold countly. by rewrite H. Qed.

Lemma countly_thrower fails v rt c log tr :
  rt_browser rt = false -> fails c = true ->
  @countly _ (thrower fails v) rt c (World log tr) = (World log tr, inl (Upstream v)).
Proof. intros H Hf. unfold countly, countly_handle, thrower. by rewrite H, Hf. Qed.

