(* ===== verification/Calls.v ===== *)
(** * Calls: a program logic for the calls a handler sends

    On the recording client a computation can only append to the log.
    [post P Q m] states that [m] does, from every log and every [trait]
    binding, that every call it appends satisfies [P], and that the value
    it returns, when it completes, satisfies [Q]: a unary postcondition
    over the recorder's runs.  The lemmas below give one rule per
    construct the handlers are written with (return, throw, property
    read, SDK call, conditional, bind), so that a property of the calls
    of a whole handler is proved by [eauto with post] once its loops are
    dealt with.  The invariants of [UserObject] and [Plugin] are
    instances. *)

From S2P Require Import Prelude JsValue Vendor.

Local Open Scope list_scope.

Definition post {A} (P : countly_call -> Prop) (Q : A -> Prop)
    (m : M (list countly_call) A) : Prop :=
  forall log tr, exists l tr' r,
    m (World log tr) = (World (log ++ l) tr', r) /\ Forall P l /\
    (forall a, r = inr a -> Q a).

Section Rules.
Context (P : countly_call -> Prop).

Lemma post_nil {A} (Q : A -> Prop) (m : M _ A) :
  (forall log tr, exists tr' r, m (World log tr) = (World log tr', r) /\ forall a, r = inr a -> Q a) ->
  post P Q m.
Proof.
  intros H log tr. destruct (H log tr) as (tr' & r & E & HQ).
  exists [], tr', r. rewrite app_nil_r. done.
Qed.

Lemma post_ret {A} (Q : A -> Prop) a : Q a -> post P Q (mret a).
Proof. intros Ha. apply post_nil. intros log tr. exists tr, (inr a). by split; [|intros ? [= <-]]. Qed.

Lemma post_throw {A} (Q : A -> Prop) e : post P Q (st_throw e).
Proof. apply post_nil. intros log tr. by exists tr, (inl e). Qed.

Lemma post_get v k : post P (fun _ => True) (get v k).
Proof. apply post_nil. intros log tr. by exists tr, (get_prop v k). Qed.

Lemma post_countly rt c : P c -> post P (fun _ => True) (countly rt c).
Proof.
  intros Hc log tr. unfold countly. destruct (rt_browser rt).
  - exists [], tr, (inl TypeError). by rewrite app_nil_r.
  - exists [c], tr, (inr tt). split; [done|]. split; [by constructor|done].
Qed.

Lemma post_if {A} (Q : A -> Prop) (b : bool) m1 m2 :
  (b = true -> post P Q m1) -> (b = false -> post P Q m2) -> post P Q (if b then m1 else m2).
Proof. destruct b; auto. Qed.

Lemma post_bind {A B} (Q1 : A -> Prop) (Q : B -> Prop) (m : M _ A) (f : A -> M _ B) :
  post P Q1 m -> (forall a, Q1 a -> post P Q (f a)) -> post P Q (m ≫= f).
Proof.
  intros Hm Hf log tr. destruct (Hm log tr) as (l1 & tr1 & r1 & E1 & F1 & Q1r).
  unfold mbind, st_bind. rewrite E1. destruct r1 as [e|a].
  - by exists l1, tr1, (inl e).
  - destruct (Hf a (Q1r a eq_refl) (log ++ l1) tr1) as (l2 & tr2 & r2 & E2 & F2 & Q2r).
    exists (l1 ++ l2), tr2, r2. rewrite E2, app_assoc.
    split; [done|]. split; [by apply Forall_app|done].
Qed.

End Rules.

Create HintDb post discriminated.
#[export] Hint Resolve post_ret post_throw post_get post_countly post_if post_bind : post.

(** ** Counting the calls *)

(** On the recording client, [m] appends at most [n] calls. *)
Definition calls_within {A} (n : nat) (m : M (list countly_call) A) : Prop :=
  forall log tr, exists l tr' r, m (World log tr) = (World (log ++ l) tr', r) /\ length l <= n.

Lemma within_nil {A} n (m : M _ A) :
  (forall log tr, exists tr' r, m (World log tr) = (World log tr', r)) -> calls_within n m.
Proof.
  intros H log tr. destruct (H log tr) as (tr' & r & E). exists [], tr', r.
  rewrite app_nil_r. split; [done|cbn; lia].
Qed.

Lemma within_ret {A} n (a : A) : calls_within n (mret a).
Proof. apply within_nil. intros log tr. by exists tr, (inr a). Qed.

Lemma within_throw {A} n e : calls_within n (st_throw e : M _ A).
Proof. apply within_nil. intros log tr. by exists tr, (inl e). Qed.

Lemma within_get n v k : calls_within n (get v k).
Proof. apply within_nil. intros log tr. by exists tr, (get_prop v k). Qed.

Lemma within_countly rt c : calls_within 1 (countly rt c).
Proof.
  intros log tr. unfold countly. destruct (rt_browser rt).
  - exists [], tr, (inl TypeError). rewrite app_nil_r. split; [done|cbn; lia].
  - exists [c], tr, (inr tt). split; [done|cbn; lia].
Qed.

Lemma within_if {A} n (b : bool) (m1 m2 : M _ A) :
  calls_within n m1 -> calls_within n m2 -> calls_within n (if b then m1 else m2).
Proof. by destruct b. Qed.

Lemma within_weaken {A} n n' (m : M _ A) : n <= n' -> calls_within n m -> calls_within n' m.
Proof.
  intros Hn Hm log tr. destruct (Hm log tr) as (l & tr' & r & E & Hl).
  exists l, tr', r. split; [done|lia].
Qed.

Lemma within_bind {A B} n1 n2 (m : M _ A) (f : A -> M _ B) :
  calls_within n1 m -> (forall a, calls_within n2 (f a)) -> calls_within (n1 + n2) (m ≫= f).
Proof.
  intros Hm Hf log tr. destruct (Hm log tr) as (l1 & tr1 & r1 & E1 & H1).
  unfold mbind, st_bind. rewrite E1. destruct r1 as [e|a].
  - exists l1, tr1, (inl e). split; [done|lia].
  - destruct (Hf a (log ++ l1) tr1) as (l2 & tr2 & r2 & E2 & H2).
    exists (l1 ++ l2), tr2, r2. rewrite E2, app_assoc, length_app. split; [done|lia].
Qed.

(** A read, or anything else that sends nothing, before [f]. *)
Lemma within_bind0 {A B} n (m : M _ A) (f : A -> M _ B) :
  calls_within 0 m -> (forall a, calls_within n (f a)) -> calls_within n (m ≫= f).
Proof. apply (within_bind 0 n). Qed.

Create HintDb within discriminated.
#[export] Hint Resolve within_ret within_throw within_get within_countly within_if within_bind0 : within.
