(* ===== verification/Handlers.v ===== *)
(** * Handlers: [initialize], [page], [track] and the auxiliary [methods]

    Lines 26-55 and 77-101 of [node.js], each handler a computation of the
    monad [M] over an arbitrary SDK client, in the order its statements
    run: the parameter destructuring (reads that throw a [TypeError] on a
    nullish value), the guards, then the one SDK call the handler makes.
    The theorems give the result of every branch: the two configuration
    errors leave the world untouched whatever the client, and on the
    recording client each successful handler appends exactly the call the
    spec lists. *)

From S2P Require Import Prelude JsValue Vendor.

Local Open Scope string_scope.
Local Open Scope list_scope.

Section Handlers.
Context {S : Type} `{!CountlyClient S} (rt : runtime).

(** The object literal of lines 36-40. *)
Definition init_options (app_key server_url debug : jsval) : jsval :=
  JObj [("app_key", app_key); ("server_url", server_url);
        ("debug", js_or debug (JBool false))].

(** [initialize: ({ config }) => {...}], lines 26-41. *)
Definition initialize (arg : jsval) : M S unit :=
  config ← get arg "config";
  app_key ← get config "app_key";
  server_url ← get config "server_url";
  debug ← get config "debug";
  if negb (truthy app_key) then st_throw (ErrorMsg "No app_key provided")
  else if negb (truthy server_url) then st_throw (ErrorMsg "No server_url provided")
  else countly rt (CInit (init_options app_key server_url debug)).

(** [page: ({ payload }) => {...}], lines 43-47. *)
Definition page (arg : jsval) : M S unit :=
  payload ← get arg "payload";
  properties ← get payload "properties";
  path ← get properties "path";
  countly rt (CTrackView path).

(** The object literal of lines 50-54. *)
Definition event_of (eventName payload : jsval) : jsval :=
  JObj [("key", eventName); ("count", JNum 1); ("segmentation", payload)].

(** [track: ({ eventName, payload }) => {...}], lines 49-55. *)
Definition track (arg : jsval) : M S unit :=
  eventName ← get arg "eventName";
  payload ← get arg "payload";
  countly rt (CAddEvent (event_of eventName payload)).

(** [methods.enableErrorTracking()], lines 79-81. *)
Definition enableErrorTracking : M S unit := countly rt CTrackErrors.

(** [methods.enableSessionTracking()], lines 83-85. *)
Definition enableSessionTracking : M S unit := countly rt CTrackSessions.

(** The shorthand object literal of line 99. *)
Definition trace_of (type name stz etz app_metrics : jsval) : jsval :=
  JObj [("type", type); ("name", name); ("stz", stz); ("etz", etz);
        ("app_metrics", app_metrics)].

(** [methods.reportTrace(payload)], lines 96-100. *)
Definition reportTrace (payload : jsval) : M S unit :=
  type ← get payload "type";
  name ← get payload "name";
  stz ← get payload "stz";
  etz ← get payload "etz";
  app_metrics ← get payload "app_metrics";
  countly rt (CReportTrace (trace_of type name stz etz app_metrics)).
End Handlers.

(** ** Proof automation *)

(** A value whose reads do not throw. *)
Definition nullish (v : jsval) : bool :=
  match v with JUndefined | JNull => true | _ => false end.

(** [v[k]] where the read succeeds, [undefined] where it throws: the
    value a destructuring of a non-nullish [v] binds. *)
Definition read (v : jsval) (k : string) : jsval :=
  match get_prop v k with inr x => x | inl _ => JUndefined end.

Lemma get_prop_ok v k : nullish v = false -> exists x, get_prop v k = inr x.
Proof. destruct v; cbn; try done; eauto. Qed.

Lemma get_prop_nullish v k : nullish v = true -> get_prop v k = inl TypeError.
Proof. by destruct v. Qed.

Lemma get_prop_read v k : nullish v = false -> get_prop v k = inr (read v k).
Proof. intros H. unfold read. by destruct (get_prop_ok v k H) as [x ->]. Qed.

(** Run the reads of a handler: unfold the monad and [get], then replace
    each [get_prop] whose result a hypothesis gives, and make the reads of
    a non-nullish value concrete. *)
Ltac run_reads :=
  unfold mbind, st_bind, mret, st_ret, st_throw, get;
  repeat (cbn -[get_prop truthy js_or countly];
          match goal with
          | H : get_prop ?v ?k = _ |- context [get_prop ?v ?k] => rewrite H
          | H : nullish ?v = false |- context [get_prop ?v ?k] =>
              let x := fresh "x" in let Hx := fresh "Hx" in
              destruct (get_prop_ok v k H) as [x Hx]; rewrite Hx
          end).

(** ** [initialize] *)

Section InitializeProofs.
Context {S : Type} `{!CountlyClient S} (rt : runtime).

Lemma get_prop_inr_nullish v k x : get_prop v k = inr x -> nullish v = false.
Proof. by destruct v. Qed.

(** C6: a falsy [app_key] throws the configuration error before the SDK
    is touched, for any client, in a browser or not. *)
Theorem initialize_no_app_key (arg cfg app_key : jsval) (w : world S) :
  get_prop arg "config" = inr cfg ->
  get_prop cfg "app_key" = inr app_key ->
  truthy app_key = false ->
  initialize rt arg w = (w, inl (ErrorMsg "No app_key provided")).
Proof.
  intros Hc Ha Hf. pose proof (get_prop_inr_nullish _ _ _ Ha) as Hn.
  unfold initialize. run_reads. by rewrite Hf.
Qed.

(** C18: a truthy [app_key] and a falsy [server_url] throw the second
    configuration error, again before the SDK is touched. *)
Theorem initialize_no_server_url (arg cfg app_key server_url : jsval) (w : world S) :
  get_prop arg "config" = inr cfg ->
  get_prop cfg "app_key" = inr app_key ->
  get_prop cfg "server_url" = inr server_url ->
  truthy app_key = true -> truthy server_url = false ->
  initialize rt arg w = (w, inl (ErrorMsg "No server_url provided")).
Proof.
  intros Hc Ha Hs Ht Hf. pose proof (get_prop_inr_nullish _ _ _ Ha) as Hn.
  unfold initialize. run_reads. by rewrite Ht, Hf.
Qed.

(** C19: without a configuration object ([config] absent, [undefined]
    or [null]) [initialize] throws a [TypeError] from the destructuring
    of line 27, not one of the two configuration errors, and again before
    the SDK is touched, for any client. *)
Theorem initialize_no_config (arg cfg : jsval) (w : world S) :
  get_prop arg "config" = inr cfg -> nullish cfg = true ->
  initialize rt arg w = (w, inl TypeError).
Proof.
  intros Hc Hn. pose proof (get_prop_nullish cfg "app_key" Hn).
  unfold initialize. by run_reads.
Qed.
End InitializeProofs.

(** ** The successful branches, on the recording client *)

Section RecorderProofs.
Variable rt : runtime.
Hypothesis Hserver : rt_browser rt = false.

(** C7: with both settings truthy, [initialize] makes exactly one
    [Countly.init] call, with [debug] the configured value when it is
    truthy and [false] otherwise. *)
Theorem initialize_ok (arg cfg app_key server_url debug : jsval) log tr :
  get_prop arg "config" = inr cfg ->
  get_prop cfg "app_key" = inr app_key ->
  get_prop cfg "server_url" = inr server_url ->
  get_prop cfg "debug" = inr debug ->
  truthy app_key = true -> truthy server_url = true ->
  initialize rt arg (World log tr) =
    (World (log ++ [CInit (JObj [("app_key", app_key); ("server_url", server_url);
                                ("debug", if truthy debug then debug else JBool false)])]) tr,
     inr tt).
Proof.
  intros Hc Ha Hs Hd Ht1 Ht2. unfold initialize. run_reads.
  rewrite Ht1, Ht2. cbn. by rewrite countly_recorder.
Qed.

(** C20: [page] makes exactly one [track_view] call, with the [path] of
    [payload.properties]. *)
Theorem page_ok (arg payload properties path : jsval) log tr :
  get_prop arg "payload" = inr payload ->
  get_prop payload "properties" = inr properties ->
  get_prop properties "path" = inr path ->
  page rt arg (World log tr) = (World (log ++ [CTrackView path]) tr, inr tt).
Proof. intros H1 H2 H3. unfold page. run_reads. by rewrite countly_recorder. Qed.

(** C21: [track] makes exactly one [add_event] call, whose count is 1 and
    whose segmentation is the payload, unchanged. *)
Theorem track_ok (arg eventName payload : jsval) log tr :
  get_prop arg "eventName" = inr eventName ->
  get_prop arg "payload" = inr payload ->
  track rt arg (World log tr) =
    (World (log ++ [CAddEvent (JObj [("key", eventName); ("count", JNum 1);
                                    ("segmentation", payload)])]) tr, inr tt).
Proof. intros H1 H2. unfold track. run_reads. by rewrite countly_recorder. Qed.

(** C22: [reportTrace] forwards the five fields it reads, unchanged and
    with no check of [stz <= etz], in one [report_trace] call. *)
Theorem reportTrace_ok (payload type name stz etz app_metrics : jsval) log tr :
  get_prop payload "type" = inr type ->
  get_prop payload "name" = inr name ->
  get_prop payload "stz" = inr stz ->
  get_prop payload "etz" = inr etz ->
  get_prop payload "app_metrics" = inr app_metrics ->
  reportTrace rt payload (World log tr) =
    (World (log ++ [CReportTrace (JObj [("type", type); ("name", name); ("stz", stz);
                                       ("etz", etz); ("app_metrics", app_metrics)])]) tr,
     inr tt).
Proof. intros H1 H2 H3 H4 H5. unfold reportTrace. run_reads. by rewrite countly_recorder. Qed.

End RecorderProofs.

(** ** Error paths *)

Section ErrorProofs.
Context {S : Type} `{!CountlyClient S} (rt : runtime).

(** C23: a nullish [payload] or [payload.properties] makes [page] throw a
    [TypeError] before any SDK call. *)
Theorem page_type_error (arg payload : jsval) (w : world S) :
  get_prop arg "payload" = inr payload ->
  (nullish payload = true \/
   exists properties, get_prop payload "properties" = inr properties /\
                      nullish properties = true) ->
  page rt arg w = (w, inl TypeError).
Proof.
  intros H1 [Hn|(p & H2 & Hn)]; unfold page; run_reads.
  - by rewrite get_prop_nullish.
  - by rewrite get_prop_nullish.
Qed.

End ErrorProofs.

(** C24: an exception the SDK throws propagates out of the handler
    unchanged, as [Upstream v]: here from [add_event] in [track]. *)
Theorem track_upstream_error (fails : countly_call -> bool) (v : jsval) rt
    (arg eventName payload : jsval) log tr :
  rt_browser rt = false ->
  get_prop arg "eventName" = inr eventName ->
  get_prop arg "payload" = inr payload ->
  fails (CAddEvent (event_of eventName payload)) = true ->
  @track _ (thrower fails v) rt arg (World log tr) = (World log tr, inl (Upstream v)).
Proof.
  intros Hb H1 H2 Hf. unfold track. run_reads. by apply countly_thrower.
Qed.

(** C25: in a browser bundle, where [Countly] is [undefined], a valid
    [initialize] throws a [TypeError] and changes nothing, instead of the
    no-op the spec asks for. *)
Theorem initialize_browser_type_error {S} `{!CountlyClient S} rt
    (arg cfg app_key server_url : jsval) (w : world S) :
  rt_browser rt = true ->
  get_prop arg "config" = inr cfg ->
  get_prop cfg "app_key" = inr app_key ->
  get_prop cfg "server_url" = inr server_url ->
  truthy app_key = true -> truthy server_url = true ->
  initialize rt arg w = (w, inl TypeError).
Proof.
  intros Hb Hc Ha Hs Ht1 Ht2. pose proof (get_prop_inr_nullish _ _ _ Ha).
  unfold initialize. run_reads.
  rewrite Ht1, Ht2. cbn. by apply countly_browser.
Qed.

(** ** Witnesses at concrete inputs *)

Lemma initialize_no_config_witness :
  initialize (S := list countly_call) (Runtime false true) (JObj [("config", JNull)]) (World [] None) =
  (World [] None, inl TypeError).
Proof. apply (initialize_no_config (Runtime false true) (JObj [("config", JNull)]) JNull); reflexivity. Defined.

Lemma initialize_no_app_key_witness :
  initialize (S := list countly_call) (Runtime false true)
    (JObj [("config", JObj [("app_key", JStr ""); ("server_url", JStr "https://c.example")])])
    (World [] None) = (World [] None, inl (ErrorMsg "No app_key provided")).
Proof. eapply initialize_no_app_key; reflexivity. Defined.

Lemma initialize_no_server_url_witness :
  initialize (S := list countly_call) (Runtime false true)
    (JObj [("config", JObj [("app_key", JStr "k")])])
    (World [] None) = (World [] None, inl (ErrorMsg "No server_url provided")).
Proof. eapply initialize_no_server_url; reflexivity. Defined.

Lemma initialize_ok_witness :
  initialize (Runtime false true)
    (JObj [("config", JObj [("app_key", JStr "k"); ("server_url", JStr "https://c.example")])])
    (World [] None) =
  (World ([] ++ [CInit (JObj [("app_key", JStr "k"); ("server_url", JStr "https://c.example");
                              ("debug", if truthy JUndefined then JUndefined else JBool false)])]) None,
   inr tt).
Proof. eapply initialize_ok; reflexivity. Defined.

Lemma page_ok_witness :
  page (Runtime false true)
    (JObj [("payload", JObj [("properties", JObj [("path", JStr "/home")])])]) (World [] None) =
  (World ([] ++ [CTrackView (JStr "/home")]) None, inr tt).
Proof. eapply page_ok; reflexivity. Defined.

Lemma track_ok_witness :
  track (Runtime false true)
    (JObj [("eventName", JStr "signup"); ("payload", JObj [("plan", JStr "pro")])]) (World [] None) =
  (World ([] ++ [CAddEvent (JObj [("key", JStr "signup"); ("count", JNum 1);
                                  ("segmentation", JObj [("plan", JStr "pro")])])]) None, inr tt).
Proof. eapply track_ok; reflexivity. Defined.

Lemma reportTrace_ok_witness :
  reportTrace (Runtime false true)
    (JObj [("type", JStr "network"); ("name", JStr "api"); ("stz", JNum 100); ("etz", JNum 150);
           ("app_metrics", JObj [("bytes", JNum 10)])]) (World [] None) =
  (World ([] ++ [CReportTrace (JObj [("type", JStr "network"); ("name", JStr "api");
                                     ("stz", JNum 100); ("etz", JNum 150);
                                     ("app_metrics", JObj [("bytes", JNum 10)])])]) None, inr tt).
Proof. eapply reportTrace_ok; reflexivity. Defined.

Lemma page_type_error_witness :
  page (S := list countly_call) (Runtime false true)
    (JObj [("payload", JObj [("properties", JNull)])]) (World [] None) = (World [] None, inl TypeError).
Proof. eapply page_type_error; [reflexivity|right; eexists; split; reflexivity]. Defined.

Lemma track_upstream_error_witness :
  @track _ (thrower (fun _ => true) (JStr "network down")) (Runtime false true)
    (JObj [("eventName", JStr "signup"); ("payload", JObj [])]) (World [] None) =
  (World [] None, inl (Upstream (JStr "network down"))).
Proof. eapply track_upstream_error; reflexivity. Defined.

Lemma initialize_browser_type_error_witness :
  initialize (S := list countly_call) (Runtime true true)
    (JObj [("config", JObj [("app_key", JStr "k"); ("server_url", JStr "https://c.example")])])
    (World [] None) = (World [] None, inl TypeError).
Proof. eapply initialize_browser_type_error; reflexivity. Defined.
