(* ===== verification/Identify.v ===== *)
(** * Identify: the [identify] handler and its classification loop

    Lines 57-76 of [node.js].  The handler reads [userId] and [traits],
    calls [Countly.change_id] when [userId] is a string, builds
    [userObject = { custom: {} }] by a [for (trait in traits)] loop that
    files each trait either at the top level, under the key
    [allowedProps[trait]], when that array read is truthy, or under
    [custom], and finally calls [Countly.user_details(userObject)].

    Two behaviours of the code are modelled as written: the loop variable
    [trait] is not declared, so each iteration assigns the global [trait]
    ([assign_trait]: a [ReferenceError] in strict code with no such global,
    a new global in sloppy code); and [allowedProps[trait]] reads the array
    by the trait's name, which is truthy for the index keys ["0"]..["7"],
    for ["length"], ["__proto__"] and the names of the array prototype's
    methods, and [undefined] for the eight field names themselves.

    The specification side: [user_spec], the user object the loop builds,
    stated declaratively as a partition of the enumerated keys, and the
    refinement theorem [identify_refines_spec]; [spec_known], the
    membership rule the spec asks for, and the theorems on where the code
    departs from it. *)

From S2P Require Import Prelude JsString JsValue Vendor Handlers.

Local Open Scope string_scope.
Local Open Scope list_scope.

(** The eight field names of line 61, and the array literal itself. *)
Definition allowed_names : list string :=
  ["name"; "username"; "email"; "organization"; "phone"; "picture"; "gender"; "byear"].

Definition allowedProps : jsval := JArr (map JStr allowed_names).

(** [o[k] = v] on the object [o] the plugin created: [set_prop] on its
    own properties.  The plugin only writes to [userObject] and to
    [userObject.custom], both ordinary objects it created; a write to any
    other value is not reachable and leaves it unchanged. *)
Definition obj_set (o : jsval) (k : string) (v : jsval) : jsval :=
  match o with
  | JObj ps => JObj (set_prop ps k v)
  | _ => o
  end.

Section Identify.
Context {S : Type} `{!CountlyClient S} (rt : runtime).

(** [trait = k], the assignment the [for (trait in ...)] head performs on
    each iteration: [trait] is not declared in the handler, so it is the
    global binding; without one, strict code throws a [ReferenceError]
    and sloppy code creates the global. *)
Definition assign_trait (k : string) : M S unit :=
  fun w =>
    match w_trait w with
    | Some _ => (World (w_sdk w) (Some (JStr k)), inr tt)
    | None =>
        if rt_strict rt then (w, inl (ReferenceError "trait"))
        else (World (w_sdk w) (Some (JStr k)), inr tt)
    end.

(** One iteration, lines 66-73.  [userObject.custom[trait] = v] writes
    into the object that [userObject.custom] refers to; that object is
    referenced from nowhere else, so reading it, updating it and storing
    it back under the same key (in place: the key exists) has the effect
    of the write through the reference. *)
Definition identify_step (traits userObject : jsval) (trait : string) : M S jsval :=
  assign_trait trait;;
  allowed ← get allowedProps trait;
  if truthy allowed then
    v ← get traits trait;
    mret (obj_set userObject (to_string allowed) v)
  else
    custom ← get userObject "custom";
    v ← get traits trait;
    mret (obj_set userObject "custom" (obj_set custom trait v)).

(** The loop over the keys [for-in] enumerates, lines 66-73. *)
Fixpoint identify_loop (traits : jsval) (keys : list string) (userObject : jsval)
  : M S jsval :=
  match keys with
  | [] => mret userObject
  | k :: ks => u ← identify_step traits userObject k; identify_loop traits ks u
  end.

(** [identify: ({ payload }) => {...}], lines 57-76. *)
Definition identify (arg : jsval) : M S unit :=
  payload ← get arg "payload";
  userId ← get payload "userId";
  traits ← get payload "traits";
  (if String.eqb (typeof_ userId) "string"
   then countly rt (CChangeId userId) else mret tt);;
  userObject ← (if truthy traits
                then identify_loop traits (for_in_keys traits) (JObj [("custom", JObj [])])
                else mret (JObj [("custom", JObj [])]));
  countly rt (CUserDetails userObject).
End Identify.

(** ** The classification rule, as the code has it and as the spec asks *)

(** The code files [trait] at the top level when [allowedProps[trait]] is
    truthy, under the key [String(allowedProps[trait])]. *)
Definition code_known (k : string) : bool := truthy (array_get (map JStr allowed_names) k).
Definition code_key (k : string) : string := to_string (array_get (map JStr allowed_names) k).

(** The spec's rule: the trait's name is one of the eight fields. *)
Definition spec_known (k : string) : bool := bool_decide (k ∈ allowed_names).

(** The user object the loop builds, declaratively: [custom] holds the
    traits the code does not recognise, in enumeration order, and the
    recognised ones follow it at the top level under [code_key]. *)
Definition user_entries (traits : jsval) (ks : list string) : list (string * jsval) :=
  map (fun k => (code_key k, read traits k)) (filter (fun k => code_known k = true) ks).
Definition custom_entries (traits : jsval) (ks : list string) : list (string * jsval) :=
  map (fun k => (k, read traits k)) (filter (fun k => code_known k = false) ks).

Definition user_spec (traits : jsval) : jsval :=
  let ks := for_in_keys traits in
  JObj (("custom", JObj (custom_entries traits ks)) :: user_entries traits ks).

(** The global [trait] after the loop: the last key enumerated. *)
Definition last_trait (tr : option jsval) (ks : list string) : option jsval :=
  match last ks with Some k => Some (JStr k) | None => tr end.

(** The [change_id] call of lines 62-64, if any. *)
Definition change_calls (userId : jsval) : list countly_call :=
  if String.eqb (typeof_ userId) "string" then [CChangeId userId] else [].

(** The assignment to [trait] succeeds in sloppy code or when a global
    exists. *)
Definition can_assign (rt : runtime) (tr : option jsval) : Prop := rt_strict rt = false \/ is_Some tr.

(** ** The array read [allowedProps[k]] *)

Lemma allowed_names_NoDup : NoDup allowed_names.
Proof. by apply (bool_decide_unpack _). Qed.

(** The four ways [allowedProps[k]] can be truthy, and the key each gives:
    an index below 8 (the field name), ["length"] (the key ["8"]),
    ["__proto__"] ([Array.prototype], whose string is empty), and a method
    name (the method's source text; for ["constructor"], [Array]'s). *)
Lemma code_known_cases k :
  code_known k = true ->
  (exists i, i < 8 /\ k = N_to_string (N.of_nat i) /\ code_key k = nth i allowed_names "")
  \/ (k = "length" /\ code_key k = "8")
  \/ (k = "__proto__" /\ code_key k = "")
  \/ (k <> "length" /\ k <> "__proto__" /\ k ∈ array_proto_names ++ object_proto_names /\
      code_key k = ("function " ++ (if String.eqb k "constructor" then "Array" else k) ++
                    "() { [native code] }")%string).
Proof.
  unfold code_known, code_key, array_get. destruct (array_index k) as [i|] eqn:Ei.
  - destruct (array_index_Some _ _ Ei) as [-> _].
    intros H. left. exists (N.to_nat i). rewrite N2Nat.id.
    destruct (N.to_nat i) as [|[|[|[|[|[|[|[|j]]]]]]]]; cbn in *; done || (split; [lia|done]).
  - destruct (String.eqb_spec k "length") as [->|Hl]; [by right; left|].
    unfold proto_get. destruct (String.eqb_spec k "__proto__") as [->|Hp]; [by right; right; left|].
    destruct (String.eqb_spec k "constructor") as [->|Hc].
    { intros _. right; right; right. split_and!; [done|done| |done]. by apply (bool_decide_unpack _). }
    case_decide as Hm; [|done]. intros _. right; right; right.
    split_and!; done.
Qed.

(** [Array] is not the name of a prototype method. *)
Lemma array_ctor_not_method : "Array" ∉ array_proto_names ++ object_proto_names.
Proof. apply (bool_decide_unpack _). vm_compute. reflexivity. Qed.

Lemma allowed_names_nth i : i < 8 -> In (nth i allowed_names "") allowed_names.
Proof. intros Hi. apply nth_In. cbn. lia. Qed.

(** A recognised trait never lands on the [custom] key or on the
    [__proto__] setter. *)
Lemma code_key_not_custom k :
  code_known k = true -> code_key k <> "custom" /\ code_key k <> "__proto__".
Proof.
  intros H. destruct (code_known_cases k H) as [(i & Hi & _ & ->)|[[_ ->]|[[_ ->]|(_ & _ & _ & ->)]]];
    [|split; discriminate ..].
  pose proof (allowed_names_nth i Hi) as Hin.
  split; intros E; rewrite E in Hin; cbn in Hin; intuition discriminate.
Qed.

(** Distinct recognised traits get distinct top-level keys. *)
Lemma code_key_inj k1 k2 :
  code_known k1 = true -> code_known k2 = true -> code_key k1 = code_key k2 -> k1 = k2.
Proof.
  intros H1 H2.
  destruct (code_known_cases _ H1) as [(i & Hi & -> & ->)|[[-> ->]|[[-> ->]|(_ & _ & Hm1 & ->)]]];
  destruct (code_known_cases _ H2) as [(j & Hj & -> & ->)|[[-> ->]|[[-> ->]|(_ & _ & Hm2 & ->)]]];
    intros E; try done; try discriminate;
    try (pose proof (allowed_names_nth i Hi) as Hin; rewrite E in Hin);
    try (pose proof (allowed_names_nth j Hj) as Hin; rewrite <-E in Hin);
    try (cbn in Hin; intuition discriminate).
  - f_equal. f_equal. apply (proj1 (NoDup_nth allowed_names "") (proj1 (NoDup_ListNoDup _) allowed_names_NoDup)); cbn; lia || done.
  - apply string_app_inv_l, string_app_inv_r in E.
    destruct (String.eqb_spec k1 "constructor"), (String.eqb_spec k2 "constructor"); subst; try done;
      by destruct array_ctor_not_method.
Qed.

(** ** The loop against its specification *)

Lemma last_trait_cons tr k ks : last_trait tr (k :: ks) = last_trait (Some (JStr k)) ks.
Proof.
  unfold last_trait. destruct ks as [|s ks]; [reflexivity|]. rewrite last_cons_cons.
  destruct (last (s :: ks)) eqn:E; [done|]. by apply last_None in E.
Qed.

Lemma code_known_proto : code_known "__proto__" = true.
Proof. reflexivity. Qed.

Section LoopProofs.
Context {S : Type} `{!CountlyClient S} (rt : runtime).

Lemma assign_trait_ok k (s : S) tr :
  can_assign rt tr -> assign_trait rt k (World s tr) = (World s (Some (JStr k)), inr tt).
Proof.
  intros Ha. unfold assign_trait. cbn. destruct tr as [x|]; [done|].
  destruct Ha as [H|[? ?]]; [|discriminate]. by rewrite ?H.
Qed.

(** One iteration on a user object [{custom: c, ...top}]. *)
Lemma identify_step_run traits c top k (s : S) tr :
  can_assign rt tr -> nullish traits = false ->
  identify_step rt traits (JObj (("custom", JObj c) :: top)) k (World s tr) =
    (World s (Some (JStr k)),
     inr (if code_known k
          then JObj (set_prop (("custom", JObj c) :: top) (code_key k) (read traits k))
          else JObj (("custom", JObj (set_prop c k (read traits k))) :: top))).
Proof.
  intros Ha Hn. unfold identify_step, mbind, st_bind, mret, st_ret, get.
  rewrite assign_trait_ok by done.
  change (get_prop allowedProps k) with (@inr exn jsval (array_get (map JStr allowed_names) k)).
  cbn -[get_prop truthy to_string set_prop array_get].
  rewrite get_prop_read by done. unfold code_known, code_key.
  destruct (truthy _); [done|]. reflexivity.
Qed.

(** The loop builds [custom] and the top level by appending, key by key,
    when the keys are distinct and fresh for what is already built. *)
Lemma identify_loop_run traits ks c top (s : S) tr :
  can_assign rt tr -> nullish traits = false -> NoDup ks ->
  (forall k, k ∈ ks -> code_known k = false -> k ∉ c.*1) ->
  (forall k, k ∈ ks -> code_known k = true -> code_key k ∉ top.*1) ->
  identify_loop rt traits ks (JObj (("custom", JObj c) :: top)) (World s tr) =
    (World s (last_trait tr ks),
     inr (JObj (("custom", JObj (c ++ custom_entries traits ks)) :: top ++ user_entries traits ks))).
Proof.
  revert c top tr. induction ks as [|k ks IH]; intros c top tr Ha Hn Hnd Hc Ht.
  { cbn. by rewrite !app_nil_r. }
  apply NoDup_cons in Hnd as [Hk Hnd].
  cbn [identify_loop]. unfold mbind at 1, st_bind at 1.
  rewrite identify_step_run by done. rewrite last_trait_cons.
  unfold custom_entries, user_entries. rewrite !filter_cons.
  destruct (code_known k) eqn:Ek; cbn [negb].
  - destruct (code_key_not_custom k Ek) as [Hcu Hpr].
    rewrite set_prop_fresh; cycle 1.
    { cbn. rewrite elem_of_cons. intros [?|?]; [done|]. by apply (Ht k); [left| |]. }
    { done. }
    rewrite (decide_True (P := true = true)), (decide_False (P := true = false)) by done.
    cbn [map app].
    rewrite IH; [|by right|done|done| |].
    2: { intros k' Hk' Ek'. apply Hc; [by right|done]. }
    2: { intros k' Hk' Ek'. rewrite fmap_app, elem_of_app.
         intros [?|Hs]; [by apply (Ht k'); [right| |]|].
         apply list_elem_of_singleton, (code_key_inj _ _ Ek' Ek) in Hs. by subst. }
    by rewrite <-app_assoc.
  - rewrite set_prop_fresh; cycle 1.
    { by apply (Hc k); [left|]. }
    { intros ->. by rewrite code_known_proto in Ek. }
    rewrite (decide_True (P := false = false)), (decide_False (P := false = true)) by done.
    cbn [map]. rewrite IH; [|by right|done|done| |].
    2: { intros k' Hk' Ek'. rewrite fmap_app, elem_of_app.
         intros [?|Hs]; [by apply (Hc k'); [right| |]|].
         apply list_elem_of_singleton in Hs. by subst. }
    2: { intros k' Hk' Ek'. apply Ht; [by right|done]. }
    by rewrite <-app_assoc.
Qed.

(** In strict code with no global [trait], the first iteration throws
    before anything else happens. *)
Lemma identify_loop_strict traits k ks u (s : S) :
  rt_strict rt = true ->
  identify_loop rt traits (k :: ks) u (World s None) = (World s None, inl (ReferenceError "trait")).
Proof. intros Hs. cbn. unfold identify_step, mbind, st_bind, assign_trait. cbn. by rewrite Hs. Qed.
End LoopProofs.

(** ** The handler *)

Lemma truthy_not_nullish v : truthy v = true -> nullish v = false.
Proof. by destruct v. Qed.

Lemma change_id_run rt userId log tr :
  rt_browser rt = false ->
  (if String.eqb (typeof_ userId) "string" then countly rt (CChangeId userId) else mret tt)
    (World log tr) = (World (log ++ change_calls userId) tr, inr tt).
Proof.
  intros Hb. unfold change_calls.
  destruct (String.eqb _ _); [by apply countly_recorder|by rewrite app_nil_r].
Qed.

(** [identify] once its three reads succeed: [change_id], the user
    object the loop (or the falsy-traits branch) yields, [user_details]. *)
Lemma identify_run rt (arg payload userId traits u : jsval) log tr tr' :
  rt_browser rt = false ->
  get_prop arg "payload" = inr payload ->
  get_prop payload "userId" = inr userId ->
  get_prop payload "traits" = inr traits ->
  (if truthy traits
   then identify_loop rt traits (for_in_keys traits) (JObj [("custom", JObj [])])
   else mret (JObj [("custom", JObj [])])) (World (log ++ change_calls userId) tr) =
    (World (log ++ change_calls userId) tr', inr u) ->
  identify rt arg (World log tr) =
    (World (log ++ change_calls userId ++ [CUserDetails u]) tr', inr tt).
Proof.
  intros Hb H1 H2 H3 Hl. unfold identify at 1.
  unfold mbind at 1 2 3, st_bind at 1 2 3, get at 1 2 3.
  rewrite H1, H2, H3. unfold mbind at 1, st_bind at 1. rewrite change_id_run by done.
  unfold mbind, st_bind. rewrite Hl, countly_recorder by done. by rewrite <-app_assoc.
Qed.

(** The loop from [{custom: {}}] builds [user_spec traits]. *)
Lemma identify_loop_user_spec {S} `{!CountlyClient S} rt traits (s : S) tr :
  can_assign rt tr -> nullish traits = false -> NoDup (for_in_keys traits) ->
  identify_loop rt traits (for_in_keys traits) (JObj [("custom", JObj [])]) (World s tr) =
    (World s (last_trait tr (for_in_keys traits)), inr (user_spec traits)).
Proof. intros Ha Hn Hnd. rewrite identify_loop_run; try done; intros; apply not_elem_of_nil. Qed.

Section IdentifyProofs.
Variable rt : runtime.
Hypothesis Hserver : rt_browser rt = false.

(** C1: [identify] refines its specification: with truthy traits
    whose keys [for-in] enumerates once each, and where the loop's
    assignment to [trait] succeeds, it calls [change_id] (when [userId]
    is a string) and then [user_details] with exactly [user_spec traits],
    and leaves the last enumerated key in the global [trait]. *)
Theorem identify_refines_spec (arg payload userId traits : jsval) log tr :
  can_assign rt tr ->
  get_prop arg "payload" = inr payload ->
  get_prop payload "userId" = inr userId ->
  get_prop payload "traits" = inr traits ->
  truthy traits = true -> NoDup (for_in_keys traits) ->
  identify rt arg (World log tr) =
    (World (log ++ change_calls userId ++ [CUserDetails (user_spec traits)])
           (last_trait tr (for_in_keys traits)),
     inr tt).
Proof.
  intros Ha H1 H2 H3 Ht Hnd. apply (identify_run rt arg payload userId traits); try done.
  rewrite Ht. by apply identify_loop_user_spec; [|apply truthy_not_nullish|].
Qed.

(** C17: with falsy traits (absent, [null], [""], [0]) the loop is
    skipped but [user_details] is still called, with [{custom: {}}],
    after the optional [change_id]; this holds in strict code too. *)
Theorem identify_no_traits (arg payload userId traits : jsval) log tr :
  get_prop arg "payload" = inr payload ->
  get_prop payload "userId" = inr userId ->
  get_prop payload "traits" = inr traits ->
  truthy traits = false ->
  identify rt arg (World log tr) =
    (World (log ++ change_calls userId ++ [CUserDetails (JObj [("custom", JObj [])])]) tr,
     inr tt).
Proof.
  intros H1 H2 H3 Ht. apply (identify_run rt arg payload userId traits); try done. by rewrite Ht.
Qed.

(** C2: in strict code with no global [trait] (the ES module the source
    is), any trait at all makes [identify] throw a [ReferenceError] on
    the first iteration: [change_id] has already been sent, and
    [user_details] never is. *)
Theorem identify_strict_reference_error (arg payload userId traits : jsval) log :
  rt_strict rt = true ->
  get_prop arg "payload" = inr payload ->
  get_prop payload "userId" = inr userId ->
  get_prop payload "traits" = inr traits ->
  truthy traits = true -> for_in_keys traits <> [] ->
  identify rt arg (World log None) =
    (World (log ++ change_calls userId) None, inl (ReferenceError "trait")).
Proof.
  intros Hs H1 H2 H3 Ht Hk. unfold identify at 1.
  unfold mbind at 1 2 3, st_bind at 1 2 3, get at 1 2 3.
  rewrite H1, H2, H3. unfold mbind, st_bind. rewrite change_id_run by done.
  rewrite Ht. destruct (for_in_keys traits) as [|k ks]; [done|].
  rewrite identify_loop_strict by done. done.
Qed.
End IdentifyProofs.

(** ** Where the code departs from the spec *)

(** C8: none of the eight field names the spec lists as known is
    recognised by the code: [allowedProps[name]] is [undefined] for each,
    so every one of them is filed under [custom]. *)
Theorem spec_known_not_code_known k :
  spec_known k = true -> code_known k = false.
Proof.
  unfold spec_known. rewrite bool_decide_eq_true, list_elem_of_In. cbn.
  intros Hk. repeat destruct Hk as [<-|Hk]; [reflexivity ..|done].
Qed.

(** The method names are neither indices nor ["length"] nor ["__proto__"]. *)
Lemma method_names_plain :
  Forall (fun k => array_index k = None /\ k <> "length" /\ k <> "__proto__")
         (array_proto_names ++ object_proto_names).
Proof. apply (bool_decide_unpack _). vm_compute. reflexivity. Qed.

(** C9: what the code recognises instead: a trait is filed at the top
    level exactly when its name is an index below 8, ["length"],
    ["__proto__"] or the name of a method of [Array.prototype] or
    [Object.prototype]. *)
Theorem code_known_iff k :
  code_known k = true <->
  (exists i, i < 8 /\ k = N_to_string (N.of_nat i)) \/ k = "length" \/ k = "__proto__"
  \/ k ∈ array_proto_names ++ object_proto_names.
Proof.
  split.
  - intros H. destruct (code_known_cases k H) as [(i & Hi & -> & _)|[[-> _]|[[-> _]|(_ & _ & Hm & _)]]];
      [left; eauto|by right; left|by right; right; left|by right; right; right].
  - intros [(i & Hi & ->)|[->|[->|Hk]]]; [|done|done|].
    + unfold code_known. rewrite array_get_index by (unfold array_index_bound; lia).
      do 8 (destruct i as [|i]; [done|]). lia.
    + destruct (proj1 (Forall_forall _ _) method_names_plain k Hk) as (Hn & Hl & Hp).
      unfold code_known, array_get. rewrite Hn, (proj2 (String.eqb_neq _ _) Hl).
      unfold proto_get. rewrite (proj2 (String.eqb_neq _ _) Hp).
      destruct (String.eqb k "constructor"); [done|]. by rewrite decide_True.
Qed.

(** An object whose keys are not array indices enumerates them in
    creation order. *)
Lemma for_in_keys_plain ps : Forall (fun k => array_index k = None) ps.*1 -> for_in_keys (JObj ps) = ps.*1.
Proof.
  rewrite Forall_forall. intros H. cbn [for_in_keys]. unfold index_keys, string_keys.
  rewrite (filter_none (fun k => is_Some (array_index k))), (filter_all (fun k => ¬ is_Some (array_index k)));
    [done| |]; intros k Hk; rewrite (H k Hk); by intros [? ?].
Qed.

(** Reading every own key of an object with distinct keys rebuilds it. *)
Lemma reads_own ps : NoDup ps.*1 -> map (fun k => (k, read (JObj ps) k)) ps.*1 = ps.
Proof.
  intros Hnd. rewrite map_fmap. apply list_eq. intros i. rewrite !list_lookup_fmap.
  destruct (ps !! i) as [[k v]|] eqn:E; [|done]. cbn. unfold read. cbn [get_prop].
  by rewrite (alookup_own k v ps Hnd) by (by eapply list_elem_of_lookup_2).
Qed.

(** On such an object, none of whose keys the code recognises, the user
    object is [{custom: traits}]. *)
Lemma user_spec_plain ps :
  NoDup ps.*1 -> Forall (fun k => array_index k = None /\ code_known k = false) ps.*1 ->
  user_spec (JObj ps) = JObj [("custom", JObj ps)].
Proof.
  intros Hnd Hk. unfold user_spec, custom_entries, user_entries.
  rewrite for_in_keys_plain by (eapply Forall_impl; [exact Hk|]; by intros ? []).
  rewrite Forall_forall in Hk.
  rewrite (filter_none (fun k => code_known k = true)), (filter_all (fun k => code_known k = false))
    by (intros k Hin; destruct (Hk k Hin); congruence).
  by rewrite reads_own.
Qed.

(** C5: on an ordinary traits object (distinct keys, none an array index
    and none a key [allowedProps[k]] recognises, so every field name
    qualifies), [identify] on a server where the assignment to [trait]
    succeeds sends [change_id] for a string [userId] and then
    [user_details({custom: traits})]: the whole object, field names
    included, in creation order, under [custom].  On the spec's example
    [{email, plan}] the code sends [{custom: {email, plan}}] where the
    spec expects [{custom: {plan}, email}]. *)
Theorem identify_plain_traits rt arg payload userId ps log tr :
  rt_browser rt = false -> can_assign rt tr ->
  get_prop arg "payload" = inr payload -> get_prop payload "userId" = inr userId ->
  get_prop payload "traits" = inr (JObj ps) ->
  NoDup ps.*1 -> Forall (fun k => array_index k = None /\ code_known k = false) ps.*1 ->
  identify rt arg (World log tr) =
    (World (log ++ change_calls userId ++ [CUserDetails (JObj [("custom", JObj ps)])])
           (last_trait tr ps.*1), inr tt).
Proof.
  intros Hb Ha H1 H2 H3 Hnd Hk.
  assert (Hkeys : for_in_keys (JObj ps) = ps.*1)
    by (apply for_in_keys_plain; eapply Forall_impl; [exact Hk|]; by intros ? []).
  apply (identify_run rt arg payload userId (JObj ps)); try done. cbn [truthy].
  rewrite identify_loop_user_spec; [|done|done|by rewrite Hkeys]. by rewrite Hkeys, user_spec_plain.
Qed.

(** The key [String(allowedProps["constructor"])] a trait named
    [constructor] is filed under: [Array]'s source text. *)
Example code_key_constructor : code_key "constructor" = "function Array() { [native code] }".
Proof. reflexivity. Qed.

(** ** Witnesses at concrete inputs *)

Lemma identify_refines_spec_witness :
  identify (Runtime false false)
    (JObj [("payload", JObj [("userId", JStr "u1");
                            ("traits", JObj [("email", JStr "a@b.com"); ("0", JStr "Zed")])])])
    (World [] None) =
  (World ([] ++ change_calls (JStr "u1") ++
          [CUserDetails (user_spec (JObj [("email", JStr "a@b.com"); ("0", JStr "Zed")]))])
         (last_trait None (for_in_keys (JObj [("email", JStr "a@b.com"); ("0", JStr "Zed")]))),
   inr tt).
Proof.
  eapply identify_refines_spec; [reflexivity|left; reflexivity|reflexivity..|].
  apply (bool_decide_unpack _). vm_compute. reflexivity.
Defined.

Lemma identify_no_traits_witness :
  identify (Runtime false true)
    (JObj [("payload", JObj [("userId", JNum 7)])]) (World [] None) =
  (World ([] ++ change_calls (JNum 7) ++ [CUserDetails (JObj [("custom", JObj [])])]) None, inr tt).
Proof. eapply identify_no_traits; reflexivity. Defined.

Lemma identify_strict_reference_error_witness :
  identify (Runtime false true)
    (JObj [("payload", JObj [("userId", JStr "u1"); ("traits", JObj [("plan", JStr "pro")])])])
    (World [] None) =
  (World ([] ++ change_calls (JStr "u1")) None, inl (ReferenceError "trait")).
Proof. eapply identify_strict_reference_error; [reflexivity ..|discriminate]. Defined.

(** The spec's example of section 8. *)
Lemma identify_plain_traits_witness :
  identify (Runtime false false)
    (JObj [("payload", JObj [("userId", JStr "u1");
                            ("traits", JObj [("email", JStr "a@b.com"); ("plan", JStr "pro")])])])
    (World [] None) =
  (World ([] ++ change_calls (JStr "u1") ++
          [CUserDetails (JObj [("custom", JObj [("email", JStr "a@b.com"); ("plan", JStr "pro")])])])
         (last_trait None ["email"; "plan"]), inr tt).
Proof.
  apply (identify_plain_traits (Runtime false false) _
           (JObj [("userId", JStr "u1"); ("traits", JObj [("email", JStr "a@b.com"); ("plan", JStr "pro")])]));
    [reflexivity|by left|reflexivity..| |].
  - apply (bool_decide_unpack _). vm_compute. reflexivity.
  - apply (bool_decide_unpack _). vm_compute. reflexivity.
Defined.

Lemma spec_known_not_code_known_witness : code_known "email" = false.
Proof. apply spec_known_not_code_known. reflexivity. Defined.
