(* ===== verification/UserObject.v ===== *)
(** * UserObject: the shape of the object [identify] hands to the SDK

    [identify] starts from [userObject = { custom: {} }] (line 59) and
    the loop of lines 66-73 writes either a top-level key or a key of
    [userObject.custom].  [user_wf] is the shape every such object has:
    an ordinary object whose first own key is [custom], holding an
    ordinary object, with no own key twice at either level.  Every
    iteration preserves it, whatever the traits (a type invariant of the
    loop), and it gives the liveness of the handler: where the
    assignment to the global [trait] succeeds, [identify] on any payload
    object completes and sends [user_details] exactly once, with an
    object of this shape. *)

From S2P Require Import Prelude JsValue Vendor Calls Handlers Identify.

Local Open Scope string_scope.
Local Open Scope list_scope.

(** [{ custom: {...}, ... }] with distinct keys at both levels. *)
Definition user_wf (u : jsval) : bool :=
  match u with
  | JObj ((k, JObj c) :: top) =>
      String.eqb k "custom" && bool_decide (NoDup c.*1) && bool_decide (NoDup (k :: top.*1))
  | _ => false
  end.

Lemma user_wf_spec u :
  user_wf u = true <->
  exists c top, u = JObj (("custom", JObj c) :: top) /\ NoDup c.*1 /\ NoDup ("custom" :: top.*1).
Proof.
  split.
  - destruct u as [| | | | | |[|[k [| | | | | |c|]] top]|]; try discriminate. cbn.
    rewrite !andb_true_iff, String.eqb_eq, !bool_decide_eq_true. intros [[-> ?] ?]. eauto.
  - intros (c & top & -> & Hc & Ht). cbn. by rewrite !bool_decide_eq_true_2.
Qed.

(** A write to a key other than the first one leaves the first in place. *)
Lemma set_prop_cons_ne k0 x ps k v :
  k <> k0 -> set_prop ((k0, x) :: ps) k v = (k0, x) :: set_prop ps k v.
Proof.
  intros Hne. unfold set_prop. cbn. rewrite decide_False by done.
  destruct (alookup k ps); cbn; [by rewrite decide_False|].
  destruct (String.eqb k "__proto__"); [done|]. cbn. by rewrite decide_False.
Qed.

Lemma user_wf_initial : user_wf (JObj [("custom", JObj [])]) = true.
Proof. reflexivity. Qed.

(** A recognised trait writes a top-level key that is neither [custom]
    nor [__proto__]: the shape is kept. *)
Lemma user_wf_known u k v :
  user_wf u = true -> code_known k = true -> user_wf (obj_set u (code_key k) v) = true.
Proof.
  intros Hu Ek. apply user_wf_spec in Hu as (c & top & -> & Hc & Ht). apply user_wf_spec.
  destruct (code_key_not_custom k Ek) as [Hcu _]. cbn [obj_set].
  rewrite set_prop_cons_ne by done. do 2 eexists. split; [done|]. split; [done|].
  change ("custom" :: (set_prop top (code_key k) v).*1)
    with ((("custom", JObj c) :: set_prop top (code_key k) v).*1).
  rewrite <-set_prop_cons_ne by done. by apply set_prop_NoDup.
Qed.

(** Any other trait writes into [custom]: the shape is kept. *)
Lemma user_wf_custom u k v :
  user_wf u = true -> user_wf (obj_set u "custom" (obj_set (read u "custom") k v)) = true.
Proof.
  intros Hu. apply user_wf_spec in Hu as (c & top & -> & Hc & Ht). apply user_wf_spec.
  change (obj_set (JObj (("custom", JObj c) :: top)) "custom"
            (obj_set (read (JObj (("custom", JObj c) :: top)) "custom") k v))
    with (JObj (("custom", JObj (set_prop c k v)) :: top)).
  do 2 eexists. split; [done|]. split; [by apply set_prop_NoDup|done].
Qed.

Section Loop.
Context {S : Type} `{!CountlyClient S} (rt : runtime).

(** One iteration keeps the shape. *)
Lemma identify_step_wf traits u k (s : S) tr :
  can_assign rt tr -> nullish traits = false -> user_wf u = true ->
  exists u', identify_step rt traits u k (World s tr) = (World s (Some (JStr k)), inr u') /\
             user_wf u' = true.
Proof.
  intros Ha Hn Hu. pose proof Hu as (c & top & -> & _ & _)%user_wf_spec.
  rewrite identify_step_run by done. eexists. split; [done|].
  destruct (code_known k) eqn:Ek; [by apply (user_wf_known _ k _ Hu Ek)|by apply (user_wf_custom _ k _ Hu)].
Qed.

(** In any runtime the loop only touches the global [trait], and what it
    returns has the shape; where the assignment succeeds it returns, with
    the last key in [trait]. *)
Lemma identify_loop_shape traits ks u (s : S) tr :
  nullish traits = false -> user_wf u = true ->
  exists tr' r, identify_loop rt traits ks u (World s tr) = (World s tr', r) /\
    (forall u', r = inr u' -> user_wf u' = true) /\
    (can_assign rt tr -> tr' = last_trait tr ks /\ exists u', r = inr u').
Proof.
  revert u tr. induction ks as [|k ks IH]; intros u tr Hn Hu.
  { exists tr, (inr u). split; [done|]. split; [by intros ? [= <-]|eauto]. }
  cbn [identify_loop]. unfold mbind at 1, st_bind at 1.
  destruct (decide (can_assign rt tr)) as [Ha|Ha].
  - destruct (identify_step_wf traits u k s tr Ha Hn Hu) as (u1 & -> & Hu1).
    destruct (IH u1 (Some (JStr k)) Hn Hu1) as (tr' & r & E & Hr & Hl).
    exists tr', r. rewrite E, last_trait_cons. split; [done|]. split; [done|].
    intros _. apply Hl. right. eauto.
  - exists tr, (inl (ReferenceError "trait")). split; [|split; [done|done]].
    unfold identify_step, mbind, st_bind, assign_trait. cbn.
    destruct tr; [destruct Ha; right; eauto|].
    destruct (rt_strict rt) eqn:Hs; [done|]. destruct Ha. by left.
Qed.
End Loop.

(** ** The calls of [identify] *)

Lemma post_identify_loop P rt traits ks u :
  nullish traits = false -> user_wf u = true -> post P (fun u => user_wf u = true) (identify_loop rt traits ks u).
Proof.
  intros Hn Hu. apply post_nil. intros log tr.
  destruct (identify_loop_shape rt traits ks u log tr Hn Hu) as (tr' & r & E & Hr & _).
  exists tr', r. split; [exact E|exact Hr].
Qed.

(** Every call [identify] sends satisfies [P] when [change_id] calls and
    [user_details] calls on well-shaped objects do. *)
Lemma post_identify P rt arg :
  (forall id, P (CChangeId id)) -> (forall u, user_wf u = true -> P (CUserDetails u)) ->
  post P (fun _ => True) (identify rt arg).
Proof.
  intros Hc Hu. unfold identify.
  do 3 (apply (post_bind _ (fun _ => True)); [apply post_get|intros ? _]).
  apply (post_bind _ (fun _ => True)); [apply post_if; intros _; auto with post|intros _ _].
  apply (post_bind _ (fun u => user_wf u = true)); [|intros u ?; by apply post_countly, Hu].
  apply post_if; intros Ht; [apply post_identify_loop; [by apply truthy_not_nullish|apply user_wf_initial]|].
  apply post_ret, user_wf_initial.
Qed.

(** ** The theorems *)

(** C13: every [user_details] call [identify] sends carries an object of
    the shape [user_wf] ([{custom: {...}, ...}], distinct keys at both
    levels): whatever the runtime (strict or sloppy, server or browser),
    the payload and the traits, a run of [identify] on the recording
    client only appends calls to the log, and each [user_details] among
    them has such an object. *)
Theorem identify_user_details_wf rt arg log tr w' r :
  identify rt arg (World log tr) = (w', r) ->
  exists l, w_sdk w' = log ++ l /\ forall u, CUserDetails u ∈ l -> user_wf u = true.
Proof.
  intros E.
  destruct (post_identify (fun c => forall u, c = CUserDetails u -> user_wf u = true) rt arg)
    with (log := log) (tr := tr) as (l & tr' & r' & E' & F & _); [done|by intros u Hu ? [= <-]|].
  rewrite E in E'. injection E' as -> _. exists l. split; [done|].
  intros u Hu. by apply (proj1 (Forall_forall _ _) F _ Hu).
Qed.

(** C12: where the assignment to the global [trait] succeeds (sloppy
    code, or a global [trait] already exists), [identify] on a server
    completes on every payload object whatever its traits (any keys, in
    any number, an array, a string, a falsy value): it sends [change_id]
    for a string [userId], then exactly one [user_details] with an object
    of the shape [user_wf], and returns normally. *)
Theorem identify_completes rt arg payload userId traits log tr :
  rt_browser rt = false -> can_assign rt tr ->
  get_prop arg "payload" = inr payload ->
  get_prop payload "userId" = inr userId ->
  get_prop payload "traits" = inr traits ->
  exists u tr', identify rt arg (World log tr) =
                  (World (log ++ change_calls userId ++ [CUserDetails u]) tr', inr tt) /\
                user_wf u = true.
Proof.
  intros Hb Ha H1 H2 H3. destruct (truthy traits) eqn:Ht.
  - destruct (identify_loop_shape rt traits (for_in_keys traits) (JObj [("custom", JObj [])])
                (log ++ change_calls userId) tr) as (tr' & r & E & Hr & Hl);
      [by apply truthy_not_nullish|done|].
    destruct (Hl Ha) as [_ [u ->]]. exists u, tr'. split; [|by apply Hr].
    apply (identify_run rt arg payload userId traits); try done. by rewrite Ht.
  - exists (JObj [("custom", JObj [])]), tr. split; [|done].
    apply (identify_run rt arg payload userId traits); try done. by rewrite Ht.
Qed.

(** ** Witnesses *)

Lemma identify_user_details_wf_witness :
  exists l, w_sdk (identify (Runtime false true)
                     (JObj [("payload", JObj [("traits", JObj [("0", JStr "x")])])])
                     (World [] None)).1 = [] ++ l /\
            forall u, CUserDetails u ∈ l -> user_wf u = true.
Proof.
  eapply (identify_user_details_wf (Runtime false true)
            (JObj [("payload", JObj [("traits", JObj [("0", JStr "x")])])]) [] None).
  apply surjective_pairing.
Defined.

Lemma identify_completes_witness :
  exists u tr', identify (Runtime false false)
                  (JObj [("payload", JObj [("userId", JStr "u1");
                                          ("traits", JArr [JStr "a"; JStr "b"])])])
                  (World [] None) =
                (World ([] ++ change_calls (JStr "u1") ++ [CUserDetails u]) tr', inr tt) /\
                user_wf u = true.
Proof.
  apply (identify_completes (Runtime false false)
           (JObj [("payload", JObj [("userId", JStr "u1"); ("traits", JArr [JStr "a"; JStr "b"])])])
           (JObj [("userId", JStr "u1"); ("traits", JArr [JStr "a"; JStr "b"])])
           (JStr "u1") (JArr [JStr "a"; JStr "b"])); try reflexivity. by left.
Defined.
