(* ===== verification/Positional.v ===== *)
(** * Positional: [identify] on traits given as an array or a string

    [for (trait in traits)] on an array or a string enumerates the index
    keys ["0"], ["1"], ... (lines 66-73), and [allowedProps[trait]] reads
    the array [allowedProps] at that index: the first eight values are
    filed at the top level under the field names, in order, and the others
    under [custom] by their index.  [positional vals] is that object for
    the values [vals] at the indices; for a string the values are its
    UTF-16 code units as one-unit strings.  The theorems give [identify]'s
    calls on every array and every string. *)

From S2P Require Import Prelude JsString JsValue Vendor Handlers Identify.

Local Open Scope string_scope.
Local Open Scope list_scope.

(** The key printed for the index [i]. *)
Definition index_key (i : nat) : string := N_to_string (N.of_nat i).

(** The user object of traits whose index keys hold [vals]. *)
Definition positional (vals : list jsval) : jsval :=
  JObj (("custom", JObj (imap (fun j v => (index_key (8 + j), v)) (drop 8 vals)))
        :: zip allowed_names vals).

(** The one-unit strings [traits[i]] reads on a string. *)
Definition string_values (s : string) : list jsval :=
  map (fun u => JStr (encode_cp u)) (code_units s).

(** ** Index keys *)

Lemma index_range_fmap n : index_range n = index_key <$> seq 0 n.
Proof. apply map_fmap. Qed.

#[export] Instance index_key_inj : Inj (=) (=) index_key.
Proof. intros i j H. by apply N_to_string_inj, Nat2N.inj in H. Qed.

Lemma index_range_NoDup n : NoDup (index_range n).
Proof. rewrite index_range_fmap. apply NoDup_fmap_2; [apply _|apply NoDup_seq]. Qed.

(** [allowedProps[i]] is truthy exactly below 8, where it is the [i]-th
    field name. *)
Lemma code_known_index i :
  (N.of_nat i < array_index_bound)%N -> code_known (index_key i) = bool_decide (i < 8).
Proof.
  intros Hi. unfold code_known, index_key. rewrite array_get_index by done.
  destruct (decide (i < 8)) as [Hl|Hl].
  - rewrite bool_decide_eq_true_2 by done. do 8 (destruct i as [|i]; [reflexivity|]). lia.
  - rewrite bool_decide_eq_false_2, lookup_ge_None_2 by (rewrite ?length_map; cbn; lia). done.
Qed.

Lemma code_key_index i : i < 8 -> code_key (index_key i) = default "" (allowed_names !! i).
Proof. intros Hi. do 8 (destruct i as [|i]; [reflexivity|]). lia. Qed.

Lemma elem_of_index_keys k j n :
  k ∈ index_key <$> seq j n -> exists i, k = index_key i /\ j <= i < j + n.
Proof. intros (i & -> & Hi%elem_of_seq)%list_elem_of_fmap. eauto. Qed.

Lemma seq_split8 n : seq 0 n = seq 0 (min 8 n) ++ seq (min 8 n) (n - 8).
Proof. rewrite <-seq_app. f_equal. lia. Qed.

(** The index keys above 7 go to [custom], by their index. *)
Lemma custom_positional traits vals :
  (forall i v, vals !! i = Some v -> read traits (index_key i) = v) ->
  map (fun k => (k, read traits k)) (index_key <$> seq (min 8 (length vals)) (length vals - 8)) =
  imap (fun j v => (index_key (8 + j), v)) (drop 8 vals).
Proof.
  intros Hr. rewrite map_fmap. apply list_eq. intros j.
  rewrite !list_lookup_fmap, list_lookup_imap, lookup_drop.
  destruct (decide (j < length vals - 8)).
  - rewrite lookup_seq_lt by lia. destruct (vals !! (8 + j)) as [v|] eqn:E; [|apply lookup_ge_None in E; lia].
    replace (min 8 (length vals) + j) with (8 + j) by lia.
    cbv [fmap option_fmap option_map]. by rewrite (Hr _ _ E).
  - rewrite lookup_seq_ge, lookup_ge_None_2 by lia. done.
Qed.

(** The first eight go to the top level under the field names. *)
Lemma top_positional traits vals :
  (forall i v, vals !! i = Some v -> read traits (index_key i) = v) ->
  map (fun k => (code_key k, read traits k)) (index_key <$> seq 0 (min 8 (length vals))) =
  zip allowed_names vals.
Proof.
  intros Hr. rewrite map_fmap. apply list_eq. intros i.
  rewrite !list_lookup_fmap, lookup_zip_with.
  destruct (decide (i < min 8 (length vals))).
  - rewrite lookup_seq_lt by lia. cbv [fmap option_fmap option_map]. rewrite !Nat.add_0_l.
    rewrite code_key_index by lia.
    destruct (vals !! i) as [v|] eqn:E; [|apply lookup_ge_None in E; lia].
    destruct (allowed_names !! i) as [x|] eqn:Ea; [|apply lookup_ge_None in Ea; cbn in Ea; lia].
    cbn. by rewrite (Hr _ _ E).
  - rewrite lookup_seq_ge by lia. destruct (decide (i < 8)).
    + rewrite (lookup_ge_None_2 vals) by lia. by destruct (allowed_names !! i).
    + by rewrite (lookup_ge_None_2 allowed_names) by (cbn; lia).
Qed.

(** Traits whose [for-in] keys are the indices of [vals] and whose index
    reads give [vals] make the loop build [positional vals]. *)
Lemma user_spec_indexed traits vals :
  for_in_keys traits = index_range (length vals) ->
  (N.of_nat (length vals) <= array_index_bound)%N ->
  (forall i v, vals !! i = Some v -> read traits (index_key i) = v) ->
  user_spec traits = positional vals.
Proof.
  intros Hk Hb Hr. unfold user_spec, custom_entries, user_entries, positional.
  rewrite Hk, index_range_fmap, seq_split8, fmap_app, !filter_app.
  rewrite (filter_all (fun k => code_known k = true) (index_key <$> seq 0 _)),
    (filter_none (fun k => code_known k = true) (index_key <$> seq (min _ _) _)),
    (filter_none (fun k => code_known k = false) (index_key <$> seq 0 _)),
    (filter_all (fun k => code_known k = false) (index_key <$> seq (min _ _) _));
    try (intros k (i & -> & Hi)%elem_of_index_keys; rewrite code_known_index by lia;
         case_bool_decide; (done || lia)).
  rewrite app_nil_l, app_nil_r, custom_positional, top_positional by done. done.
Qed.

(** [traits[i]] on an array and on a string. *)
Lemma read_array_index l i v :
  l !! i = Some v -> (N.of_nat (length l) <= array_index_bound)%N -> read (JArr l) (index_key i) = v.
Proof.
  intros E Hb. pose proof (lookup_lt_Some _ _ _ E). unfold read. cbn [get_prop].
  unfold index_key. rewrite array_get_index by lia. by rewrite E.
Qed.

Lemma read_string_index s i v :
  string_values s !! i = Some v -> (N.of_nat (js_length s) <= array_index_bound)%N ->
  read (JStr s) (index_key i) = v.
Proof.
  unfold string_values. rewrite map_fmap, list_lookup_fmap.
  destruct (code_units s !! i) as [u|] eqn:E; [|done]. intros [= <-] Hb.
  pose proof (lookup_lt_Some _ _ _ E). unfold read. cbn [get_prop]. unfold string_get, index_key.
  rewrite array_index_N_to_string by (unfold js_length in Hb; lia). rewrite Nat2N.id.
  unfold js_char_at. by rewrite E.
Qed.

(** ** The theorems *)

(** C15: traits given as an array [l] (of at most [2^32 - 1] elements, as
    every JavaScript array) are filed by position: where the assignment
    to the global [trait] succeeds, [identify] on a server sends
    [change_id] for a string [userId], then [user_details] with the first
    eight elements under [name], [username], [email], [organization],
    [phone], [picture], [gender], [byear] in that order and the others
    under [custom] keyed ["8"], ["9"], ...; the global [trait] is left at
    the last index. *)
Theorem identify_array_traits rt arg payload userId l log tr :
  rt_browser rt = false -> can_assign rt tr ->
  get_prop arg "payload" = inr payload -> get_prop payload "userId" = inr userId ->
  get_prop payload "traits" = inr (JArr l) ->
  (N.of_nat (length l) <= array_index_bound)%N ->
  identify rt arg (World log tr) =
    (World (log ++ change_calls userId ++ [CUserDetails (positional l)])
           (last_trait tr (index_range (length l))), inr tt).
Proof.
  intros Hb Ha H1 H2 H3 Hl. apply (identify_run rt arg payload userId (JArr l)); try done.
  cbn [truthy]. rewrite identify_loop_user_spec by (done || apply index_range_NoDup).
  rewrite (user_spec_indexed (JArr l) l); [done..|]. intros i v E. by apply read_array_index.
Qed.

(** C16: traits given as a string [s] are filed by UTF-16 code unit, as
    [for-in] and [traits[i]] count them: the first eight code units, as
    one-unit strings, under the eight field names, the others under
    [custom] by index, so a character outside the Basic Multilingual Plane
    is split into two lone surrogates under two keys; the empty string
    (falsy) sends [{custom: {}}] and leaves [trait] unchanged. *)
Theorem identify_string_traits rt arg payload userId s log tr :
  rt_browser rt = false -> can_assign rt tr ->
  get_prop arg "payload" = inr payload -> get_prop payload "userId" = inr userId ->
  get_prop payload "traits" = inr (JStr s) ->
  (N.of_nat (js_length s) <= array_index_bound)%N ->
  identify rt arg (World log tr) =
    (World (log ++ change_calls userId ++ [CUserDetails (positional (string_values s))])
           (last_trait tr (index_range (js_length s))), inr tt).
Proof.
  intros Hb Ha H1 H2 H3 Hl. apply (identify_run rt arg payload userId (JStr s)); try done.
  destruct (truthy (JStr s)) eqn:Ht; [|by destruct s].
  rewrite identify_loop_user_spec by (done || apply index_range_NoDup).
  assert (Hlen : js_length s = length (string_values s)) by (unfold string_values; by rewrite length_map).
  rewrite (user_spec_indexed (JStr s) (string_values s)); [done|by rewrite <-Hlen..|].
  intros i v E. by apply read_string_index.
Qed.

(** ** Witnesses *)

Lemma identify_array_traits_witness :
  identify (Runtime false false)
    (JObj [("payload", JObj [("traits", JArr [JStr "Ann"; JStr "ann1"])])]) (World [] None) =
  (World ([] ++ change_calls JUndefined ++ [CUserDetails (positional [JStr "Ann"; JStr "ann1"])])
         (last_trait None (index_range 2)), inr tt).
Proof.
  apply (identify_array_traits (Runtime false false) _ (JObj [("traits", JArr [JStr "Ann"; JStr "ann1"])]));
    [reflexivity|by left|reflexivity..|vm_compute; done].
Defined.

Lemma identify_string_traits_witness :
  identify (Runtime false false)
    (JObj [("payload", JObj [("traits", JStr "é😀")])]) (World [] None) =
  (World ([] ++ change_calls JUndefined ++ [CUserDetails (positional (string_values "é😀"))])
         (last_trait None (index_range (js_length "é😀"))), inr tt).
Proof.
  apply (identify_string_traits (Runtime false false) _ (JObj [("traits", JStr "é😀")]));
    [reflexivity|by left|reflexivity..|vm_compute; done].
Defined.

(** What the witnesses send: the array's two elements as [name] and
    [username]; the string's [é] as [name] and the two halves of [😀] as
    [username] and [email]. *)
Example positional_array_example :
  positional [JStr "Ann"; JStr "ann1"] =
  JObj [("custom", JObj []); ("name", JStr "Ann"); ("username", JStr "ann1")].
Proof. reflexivity. Qed.

Example positional_string_example :
  positional (string_values "é😀") =
  JObj [("custom", JObj []); ("name", JStr "é"); ("username", JStr (encode_cp 0xD83D%Z));
        ("email", JStr (encode_cp 0xDE00%Z))].
Proof. vm_compute. reflexivity. Qed.
