(* ===== verification/Intended.v ===== *)
(** * Intended: the spec's [identify], against the code's

    Section 4.1 of the spec fixes the contract of [identify]: a trait is
    known when its NAME is one of the eight fields, known traits go to
    the top level under their own name, the others into [custom].
    [identify_intended] is that handler, written as the code with its two
    defects corrected (the loop variable declared, membership of the
    name), and [user_intended] the object it asks for, built like
    [user_spec] (the code's object) from the keys [for-in] enumerates, in
    the same order.  The lemmas say exactly when the two objects agree
    (no trait is a field name, which the code files under [custom], and
    none is a key the code does recognise: an index below 8, [length],
    [__proto__] or a prototype method name) and what each handler sends
    on any payload; the theorem, that the SDK receives the same calls
    from both exactly on such traits. *)

From S2P Require Import Prelude JsValue Vendor Handlers Identify.

Local Open Scope string_scope.
Local Open Scope list_scope.

Definition intended_entries (traits : jsval) (ks : list string) : list (string * jsval) :=
  map (fun k => (k, read traits k)) (filter (fun k => spec_known k = true) ks).
Definition intended_custom (traits : jsval) (ks : list string) : list (string * jsval) :=
  map (fun k => (k, read traits k)) (filter (fun k => spec_known k = false) ks).

Definition user_intended (traits : jsval) : jsval :=
  let ks := for_in_keys traits in
  JObj (("custom", JObj (intended_custom traits ks)) :: intended_entries traits ks).

(** The spec's [identify] (section 4.1), written as the code with its two
    defects corrected: the loop variable is declared, so the loop assigns
    nothing outside the handler, and a trait is known when its name is
    one of the fields, filed under its own name.  One iteration: *)
Definition intended_step (traits userObject : jsval) (trait : string) : jsval :=
  if spec_known trait then obj_set userObject trait (read traits trait)
  else obj_set userObject "custom" (obj_set (read userObject "custom") trait (read traits trait)).

Definition identify_intended {S} `{!CountlyClient S} (rt : runtime) (arg : jsval) : M S unit :=
  payload ← get arg "payload";
  userId ← get payload "userId";
  traits ← get payload "traits";
  (if String.eqb (typeof_ userId) "string" then countly rt (CChangeId userId) else mret tt);;
  countly rt (CUserDetails
                (if truthy traits
                 then foldl (intended_step traits) (JObj [("custom", JObj [])]) (for_in_keys traits)
                 else JObj [("custom", JObj [])])).

(** No key is both recognised by the code and a field of the spec. *)
Lemma code_known_spec_known k : code_known k = true -> spec_known k = false.
Proof.
  intros Hc. destruct (spec_known k) eqn:Hs; [|done].
  unfold spec_known in Hs. rewrite bool_decide_eq_true, list_elem_of_In in Hs. cbn in Hs.
  repeat destruct Hs as [<-|Hs]; done.
Qed.

(** The keys of [(k, read traits k)] pairs. *)
Lemma keys_of_reads traits ks : (map (fun k => (k, read traits k)) ks).*1 = ks.
Proof. induction ks as [|k ks IH]; cbn; [done|by rewrite IH]. Qed.

(** Falsy traits enumerate no key. *)
Lemma falsy_no_keys traits : truthy traits = false -> for_in_keys traits = [].
Proof. by destruct traits as [| | |z|[|a s]| | |]. Qed.

(** The spec's loop files each key under its own name, at the top level
    for a field name and in [custom] otherwise, appending in order, when
    the keys are distinct, fresh and not the [__proto__] setter. *)
Lemma intended_fold traits ks c top :
  NoDup ks -> (forall k, k ∈ ks -> k <> "__proto__" /\ (k ∉ c.*1) /\ (k ∉ top.*1)) ->
  foldl (intended_step traits) (JObj (("custom", JObj c) :: top)) ks =
    JObj (("custom", JObj (c ++ intended_custom traits ks)) :: top ++ intended_entries traits ks).
Proof.
  unfold intended_custom, intended_entries.
  revert c top. induction ks as [|k ks IH]; intros c top Hnd Hk; cbn [foldl].
  { cbn. by rewrite !app_nil_r. }
  apply NoDup_cons in Hnd as [Hk1 Hnd]. destruct (Hk k (list_elem_of_here _ _)) as (Hp & Hc & Ht).
  assert (Hks : forall k', k' ∈ ks -> k' <> "__proto__" /\ k' <> k /\ (k' ∉ c.*1) /\ (k' ∉ top.*1)).
  { intros k' Hk'. destruct (Hk k' (list_elem_of_further _ _ _ Hk')) as (? & ? & ?).
    split_and!; try done. by intros ->. }
  rewrite !filter_cons. unfold intended_step at 2. destruct (spec_known k) eqn:Hs.
  - rewrite (decide_True (P := true = true)), (decide_False (P := true = false)) by done.
    assert (Hcu : k <> "custom") by (intros ->; discriminate).
    cbn [obj_set]. rewrite set_prop_fresh; cycle 1.
    { cbn. rewrite elem_of_cons. by intros [|]. }
    { done. }
    cbn [app map]. rewrite IH; [by rewrite <-app_assoc|done|].
    intros k' Hk'. destruct (Hks k' Hk') as (? & ? & ? & ?). split_and!; try done.
    rewrite fmap_app, elem_of_app. intros [|Hin%list_elem_of_singleton]; done.
  - rewrite (decide_True (P := false = false)), (decide_False (P := false = true)) by done.
    change (read (JObj (("custom", JObj c) :: top)) "custom") with (JObj c).
    cbn [obj_set]. rewrite (set_prop_fresh c k) by done.
    change (set_prop (("custom", JObj c) :: top) "custom" (JObj (c ++ [(k, read traits k)])))
      with (("custom", JObj (c ++ [(k, read traits k)])) :: top).
    cbn [map]. rewrite IH; [by rewrite <-app_assoc|done|].
    intros k' Hk'. destruct (Hks k' Hk') as (? & ? & ? & ?). split_and!; try done.
    rewrite fmap_app, elem_of_app. intros [|Hin%list_elem_of_singleton]; done.
Qed.

(** The code's user object and the spec's are the same object exactly
    when no trait name enumerated is recognised by the code
    ([allowedProps[k]] truthy) or is one of the spec's eight fields:
    every field name makes them differ (the code files it under
    [custom]), and so does every key the code recognises instead. *)
Lemma user_spec_intended_iff traits :
  user_spec traits = user_intended traits <->
  Forall (fun k => code_known k = false /\ spec_known k = false) (for_in_keys traits).
Proof.
  unfold user_spec, user_intended, user_entries, custom_entries, intended_entries, intended_custom.
  generalize (for_in_keys traits) as ks. intros ks. rewrite Forall_forall. split.
  - intros [= Hc _]. apply (f_equal (fmap fst)) in Hc. rewrite !keys_of_reads in Hc.
    intros k Hk. destruct (code_known k) eqn:Ec.
    + pose proof (code_known_spec_known k Ec) as Es.
      assert (Hin : k ∈ filter (fun k => spec_known k = false) ks) by by apply list_elem_of_filter.
      rewrite <-Hc, list_elem_of_filter in Hin. destruct Hin; congruence.
    + split; [done|]. destruct (spec_known k) eqn:Es; [|done].
      assert (Hin : k ∈ filter (fun k => code_known k = false) ks) by by apply list_elem_of_filter.
      rewrite Hc, list_elem_of_filter in Hin. destruct Hin; congruence.
  - intros Hall.
    rewrite (filter_none (fun k => code_known k = true)), (filter_none (fun k => spec_known k = true)),
      (filter_all (fun k => code_known k = false)), (filter_all (fun k => spec_known k = false));
      try done; intros k Hk; destruct (Hall k Hk); congruence.
Qed.

(** [identify] on any traits enumerated once each: [user_spec traits]
    (the falsy ones enumerate nothing and give [{custom: {}}]). *)
Lemma identify_user_spec_run rt arg payload userId traits log tr :
  rt_browser rt = false -> can_assign rt tr ->
  get_prop arg "payload" = inr payload -> get_prop payload "userId" = inr userId ->
  get_prop payload "traits" = inr traits -> NoDup (for_in_keys traits) ->
  identify rt arg (World log tr) =
    (World (log ++ change_calls userId ++ [CUserDetails (user_spec traits)])
           (last_trait tr (for_in_keys traits)), inr tt).
Proof.
  intros Hb Ha H1 H2 H3 Hnd. apply (identify_run rt arg payload userId traits); try done.
  destruct (truthy traits) eqn:Ht; [by apply identify_loop_user_spec; [|apply truthy_not_nullish|]|].
  unfold user_spec, last_trait. by rewrite falsy_no_keys.
Qed.

(** The spec's [identify] on any traits enumerated once each, none of
    them [__proto__]: [user_intended traits]. *)
Lemma identify_intended_run rt arg payload userId traits log tr :
  rt_browser rt = false ->
  get_prop arg "payload" = inr payload -> get_prop payload "userId" = inr userId ->
  get_prop payload "traits" = inr traits ->
  NoDup (for_in_keys traits) -> "__proto__" ∉ for_in_keys traits ->
  identify_intended rt arg (World log tr) =
    (World (log ++ change_calls userId ++ [CUserDetails (user_intended traits)]) tr, inr tt).
Proof.
  intros Hb H1 H2 H3 Hnd Hp. unfold identify_intended at 1.
  unfold mbind at 1 2 3 4, st_bind at 1 2 3 4, get at 1 2 3. rewrite H1, H2, H3, change_id_run by done.
  rewrite countly_recorder, <-app_assoc by done. do 5 f_equal.
  destruct (truthy traits) eqn:Ht.
  - rewrite (intended_fold traits _ [] []); [done|done|].
    intros k Hk. split; [by intros ->|split; apply not_elem_of_nil].
  - unfold user_intended. by rewrite falsy_no_keys.
Qed.

(** C10: the code refines the spec's [identify] exactly on the traits
    where the two classifications agree: on a server where the
    assignment to the global [trait] succeeds, for any payload whose
    traits [for-in] enumerates once each and which has no [__proto__]
    trait, [identify] and the spec's [identify_intended] both complete,
    and the SDK receives the same calls from both ([change_id] for a
    string [userId], then [user_details]) if and only if no trait
    enumerated is a field name or a key the code recognises.  The code's
    only other effect is on the global [trait]. *)
Theorem identify_refines_intended rt arg payload userId traits log tr :
  rt_browser rt = false -> can_assign rt tr ->
  get_prop arg "payload" = inr payload ->
  get_prop payload "userId" = inr userId ->
  get_prop payload "traits" = inr traits ->
  NoDup (for_in_keys traits) -> "__proto__" ∉ for_in_keys traits ->
  (exists calls tr', identify rt arg (World log tr) = (World (log ++ calls) tr', inr tt) /\
                     identify_intended rt arg (World log tr) = (World (log ++ calls) tr, inr tt)) <->
  Forall (fun k => code_known k = false /\ spec_known k = false) (for_in_keys traits).
Proof.
  intros Hb Ha H1 H2 H3 Hnd Hp. rewrite <-user_spec_intended_iff.
  rewrite (identify_user_spec_run rt arg payload userId traits), (identify_intended_run rt arg payload userId traits)
    by done.
  split.
  - intros (calls & tr' & E1 & E2). injection E1 as E1 _. injection E2 as E2.
    rewrite <-E2 in E1. do 2 apply app_inv_head in E1. congruence.
  - intros ->. by do 2 eexists.
Qed.

(** ** Witness *)

Lemma identify_refines_intended_witness :
  Forall (fun k => code_known k = false /\ spec_known k = false)
         (for_in_keys (JObj [("plan", JStr "pro"); ("email", JStr "a@b.com")])) <->
  exists calls tr',
    identify (Runtime false false)
      (JObj [("payload", JObj [("userId", JStr "u1");
                              ("traits", JObj [("plan", JStr "pro"); ("email", JStr "a@b.com")])])])
      (World [] None) = (World ([] ++ calls) tr', inr tt) /\
    identify_intended (Runtime false false)
      (JObj [("payload", JObj [("userId", JStr "u1");
                              ("traits", JObj [("plan", JStr "pro"); ("email", JStr "a@b.com")])])])
      (World [] None) = (World ([] ++ calls) None, inr tt).
Proof.
  symmetry. apply (identify_refines_intended (Runtime false false) _
                     (JObj [("userId", JStr "u1"); ("traits", JObj [("plan", JStr "pro"); ("email", JStr "a@b.com")])])
                     (JStr "u1") (JObj [("plan", JStr "pro"); ("email", JStr "a@b.com")]));
    [reflexivity|by left|reflexivity..| |].
  - apply (bool_decide_unpack _). vm_compute. reflexivity.
  - apply (bool_decide_unpack _). vm_compute. reflexivity.
Defined.

(** On that witness the traits are not all custom ones ([email] is a
    field name), so the two handlers send different calls. *)
Example identify_intended_differs :
  ~ Forall (fun k => code_known k = false /\ spec_known k = false)
      (for_in_keys (JObj [("plan", JStr "pro"); ("email", JStr "a@b.com")])).
Proof. intros H. inversion H as [|? ? _ H']. inversion H' as [|? ? [_ Hs] _]. discriminate Hs. Qed.
