(* ===== verification/Config.v ===== *)
(** * Config: the documented plugin configuration

    The JSDoc comment of [countlyPlugin] (lines 6-20 of [node.js]) types
    its configuration: an object with a string [app_key], a string
    [server_url] and a boolean [debug], and shows an example.  The spec
    (sections 3 and 4.1) asks for non-empty strings and for [debug]
    defaulted with [debug ?? false], where the code writes
    [debug || false] (line 39).  The theorems: the two defaults agree
    exactly when [debug] is truthy, nullish or [false], so on every
    documented configuration; and on a documented configuration
    [initialize] fails exactly on an empty [app_key] or [server_url] and
    otherwise sends the [init] options the spec asks for. *)

From S2P Require Import Prelude JsValue Vendor Handlers.

Local Open Scope string_scope.
Local Open Scope list_scope.

(** Lines 8-11: [pluginConfig] an object, [app_key] and [server_url]
    strings, [debug] a boolean; [debug] may be absent, which the code's
    default [debug || false] provides for. *)
Definition documented_config (pluginConfig : jsval) : bool :=
  String.eqb (typeof_ pluginConfig) "object" && negb (nullish pluginConfig) &&
  String.eqb (typeof_ (read pluginConfig "app_key")) "string" &&
  String.eqb (typeof_ (read pluginConfig "server_url")) "string" &&
  (String.eqb (typeof_ (read pluginConfig "debug")) "boolean" ||
   String.eqb (typeof_ (read pluginConfig "debug")) "undefined").

(** The example of lines 15-19. *)
Definition doc_example : jsval :=
  JObj [("app_key", JStr "your_app_key"); ("server_url", JStr "https://your_countly_server_url");
        ("debug", JBool true)].

(** [x ?? y]: [y] when [x] is [undefined] or [null], [x] otherwise. *)
Definition nullish_or (x y : jsval) : jsval := if nullish x then y else x.

(** The [init] options as the spec's section 4.1 writes them:
    [{app_key, server_url, debug: debug ?? false}]. *)
Definition init_options_spec (app_key server_url debug : jsval) : jsval :=
  JObj [("app_key", app_key); ("server_url", server_url);
        ("debug", nullish_or debug (JBool false))].

(** ** Helpers *)

Lemma documented_config_nullish pc : documented_config pc = true -> nullish pc = false.
Proof. unfold documented_config. rewrite !andb_true_iff, negb_true_iff. tauto. Qed.

Lemma documented_config_debug pc :
  documented_config pc = true -> (exists b, read pc "debug" = JBool b) \/ read pc "debug" = JUndefined.
Proof.
  unfold documented_config. rewrite !andb_true_iff, orb_true_iff, !String.eqb_eq.
  intros [_ [Hb|Hu]]; destruct (read pc "debug"); try discriminate; eauto.
Qed.

(** On a boolean or absent [debug] the two defaults agree. *)
Lemma js_or_nullish_or_debug d :
  (exists b, d = JBool b) \/ d = JUndefined -> js_or d (JBool false) = nullish_or d (JBool false).
Proof. by intros [[[] ->]| ->]. Qed.

(** A string is truthy exactly when it is not empty. *)
Lemma truthy_JStr s : truthy (JStr s) = negb (String.eqb s "").
Proof. by destruct s. Qed.

(** ** The theorems *)

(** C28: the code's default [debug || false] and the spec's
    [debug ?? false] give the same [init] options exactly when [debug] is
    truthy, [undefined], [null] or [false]: they differ on the other falsy
    values, [0] and the empty string, which the code replaces by [false]
    and the spec passes on. *)
Theorem init_options_spec_iff app_key server_url debug :
  init_options app_key server_url debug = init_options_spec app_key server_url debug <->
  truthy debug = true \/ nullish debug = true \/ debug = JBool false.
Proof.
  unfold init_options, init_options_spec, js_or, nullish_or.
  destruct debug as [| |[]|z|[|a s]| | |]; cbn; try (split; [intros _; tauto|done]).
  - destruct (Z.eqb_spec z 0) as [->|Hz]; cbn; [|split; [intros _; tauto|done]].
    split; [discriminate|intros [?|[?|?]]; discriminate].
  - split; [discriminate|intros [?|[?|?]]; discriminate].
Qed.

(** C29: on a configuration of the documented types, with [app_key] the
    string [a] and [server_url] the string [s], [initialize] on a server
    throws "No app_key provided" when [a] is empty, otherwise
    "No server_url provided" when [s] is empty, sending nothing; otherwise
    it sends one [init] call whose options are the spec's
    [{app_key, server_url, debug: debug ?? false}]. *)
Theorem initialize_documented rt pc a s log tr :
  rt_browser rt = false -> documented_config pc = true ->
  read pc "app_key" = JStr a -> read pc "server_url" = JStr s ->
  initialize rt (JObj [("config", pc)]) (World log tr) =
    if String.eqb a "" then (World log tr, inl (ErrorMsg "No app_key provided"))
    else if String.eqb s "" then (World log tr, inl (ErrorMsg "No server_url provided"))
    else (World (log ++ [CInit (init_options_spec (JStr a) (JStr s) (read pc "debug"))]) tr, inr tt).
Proof.
  intros Hb Hd Ha Hs. pose proof (documented_config_nullish pc Hd) as Hn.
  assert (Hc : get_prop (JObj [("config", pc)]) "config" = inr pc) by reflexivity.
  unfold initialize, mbind, st_bind, get. rewrite Hc, !get_prop_read by done.
  rewrite Ha, Hs, !truthy_JStr.
  destruct (String.eqb a ""); [done|]. destruct (String.eqb s ""); [done|]. cbn -[countly].
  rewrite countly_recorder by done. unfold init_options, init_options_spec.
  by rewrite js_or_nullish_or_debug by (by apply documented_config_debug).
Qed.

(** ** Witnesses *)

(** The example of the JSDoc comment is accepted, with [debug: true]. *)
Lemma initialize_documented_witness :
  initialize (Runtime false true) (JObj [("config", doc_example)]) (World [] None) =
    if String.eqb "your_app_key" "" then (World [] None, inl (ErrorMsg "No app_key provided"))
    else if String.eqb "https://your_countly_server_url" ""
         then (World [] None, inl (ErrorMsg "No server_url provided"))
    else (World ([] ++ [CInit (init_options_spec (JStr "your_app_key") (JStr "https://your_countly_server_url")
                                                  (read doc_example "debug"))]) None, inr tt).
Proof. apply initialize_documented; reflexivity. Defined.
