(* ===== verification/Plugin.v ===== *)
(** * Plugin: the plugin object and a host session

    [countlyPlugin(pluginConfig = {})] (lines 21-103) returns an object of
    handlers; [plugin] is that object as a record of operations, and
    [countlyPlugin] builds it from the handlers of [Handlers] and
    [Identify]; [default_export] is line 105, through which a session
    builds it.  The host dispatch framework is not code of this
    repository: [session] models from the spec how it uses a plugin
    (initialize with the plugin's [config], then the events in order; the
    first exception stops the session).  The theorems: a configuration
    error stops the session before any SDK call; on the recording client
    every session leaves an SDK log that starts with the one [init] call,
    which is never repeated (an invariant of every handler other than
    [initialize], proved compositionally with [appends_no_init]). *)

From S2P Require Import Prelude JsValue Vendor Calls Handlers Identify UserObject.

Local Open Scope string_scope.
Local Open Scope list_scope.

(** The object returned by [countlyPlugin], as a record of its fields. *)
Record plugin (S : Type) : Type := Plugin {
  p_name : string;
  p_config : jsval;
  p_initialize : jsval -> M S unit;
  p_page : jsval -> M S unit;
  p_track : jsval -> M S unit;
  p_identify : jsval -> M S unit;
  p_enableErrorTracking : M S unit;
  p_enableSessionTracking : M S unit;
  p_reportTrace : jsval -> M S unit
}.
Arguments Plugin {S}.
Arguments p_name {S}. Arguments p_config {S}. Arguments p_initialize {S}.
Arguments p_page {S}. Arguments p_track {S}. Arguments p_identify {S}.
Arguments p_enableErrorTracking {S}. Arguments p_enableSessionTracking {S}.
Arguments p_reportTrace {S}.

(** [countlyPlugin(pluginConfig = {})]: the default parameter replaces an
    [undefined] argument (only that) by an empty object. *)
Definition countlyPlugin {S} `{!CountlyClient S} (rt : runtime) (pluginConfig : jsval)
  : plugin S :=
  Plugin "countly"
    (match pluginConfig with JUndefined => JObj [] | v => v end)
    (initialize rt) (page rt) (track rt) (identify rt)
    (enableErrorTracking rt) (enableSessionTracking rt) (reportTrace rt).

(** [export default countlyPlugin], line 105: the factory a host gets
    from the module. *)
Definition default_export {S} `{!CountlyClient S} : runtime -> jsval -> plugin S := countlyPlugin.

(** ** The host's use of a plugin (from the spec) *)

Inductive host_event : Type :=
| EvPage (arg : jsval)
| EvTrack (arg : jsval)
| EvIdentify (arg : jsval)
| EvEnableErrorTracking
| EvEnableSessionTracking
| EvReportTrace (payload : jsval).

Definition dispatch {S} (p : plugin S) (e : host_event) : M S unit :=
  match e with
  | EvPage a => p_page p a
  | EvTrack a => p_track p a
  | EvIdentify a => p_identify p a
  | EvEnableErrorTracking => p_enableErrorTracking p
  | EvEnableSessionTracking => p_enableSessionTracking p
  | EvReportTrace a => p_reportTrace p a
  end.

Fixpoint run_events {S} (p : plugin S) (es : list host_event) : M S unit :=
  match es with
  | [] => mret tt
  | e :: es' => dispatch p e;; run_events p es'
  end.

(** Build the plugin with the module's default export, initialize it
    with [{ config: plugin.config }], then run every event. *)
Definition session {S} `{!CountlyClient S} (rt : runtime) (pluginConfig : jsval)
    (es : list host_event) : M S unit :=
  let p := default_export rt pluginConfig in
  p_initialize p (JObj [("config", p_config p)]);; run_events p es.

(** ** Computations that only append calls other than [init] *)

Definition is_init (c : countly_call) : bool :=
  match c with CInit _ => true | _ => false end.

(** On the recording client, [m] only appends calls, none of them [init]. *)
Definition appends_no_init {A} (m : M (list countly_call) A) : Prop :=
  post (fun c => is_init c = false) (fun _ => True) m.

(** A session is [initialize] followed by the events. *)
Lemma session_unfold {S} `{!CountlyClient S} rt pc es :
  session rt pc es =
    initialize rt (JObj [("config", p_config (countlyPlugin rt pc))])
      ≫= fun _ => run_events (countlyPlugin rt pc) es.
Proof. reflexivity. Qed.

Section Handlers_ani.
Variable rt : runtime.

Lemma ani_page a : appends_no_init (page rt a).
Proof. unfold appends_no_init, page. eauto 10 with post. Qed.

Lemma ani_track a : appends_no_init (track rt a).
Proof. unfold appends_no_init, track. eauto 10 with post. Qed.

Lemma ani_reportTrace a : appends_no_init (reportTrace rt a).
Proof. unfold appends_no_init, reportTrace. eauto 15 with post. Qed.

Lemma ani_identify a : appends_no_init (identify rt a).
Proof. by apply post_identify. Qed.

Lemma ani_dispatch pc e : appends_no_init (dispatch (countlyPlugin rt pc) e).
Proof.
  destruct e; cbn [dispatch countlyPlugin p_page p_track p_identify p_enableErrorTracking
                     p_enableSessionTracking p_reportTrace];
    [apply ani_page|apply ani_track|apply ani_identify| | |apply ani_reportTrace];
    by apply post_countly.
Qed.

Lemma ani_run_events pc es : appends_no_init (run_events (countlyPlugin rt pc) es).
Proof.
  unfold appends_no_init. induction es as [|e es IH]; cbn [run_events]; [by apply post_ret|].
  apply (post_bind _ (fun _ => True)); [apply ani_dispatch|done].
Qed.
End Handlers_ani.

(** On the recording client [initialize] either throws and sends nothing,
    or sends one [init] call and completes. *)
Lemma initialize_log rt arg log tr :
  rt_browser rt = false ->
  (exists e, initialize rt arg (World log tr) = (World log tr, inl e)) \/
  (exists cfg, initialize rt arg (World log tr) = (World (log ++ [CInit cfg]) tr, inr tt)).
Proof.
  intros Hb. unfold initialize, mbind, st_bind, get, st_throw. cbn -[countly get_prop truthy].
  repeat case_match; try by left; eauto.
  right. eexists. rewrite countly_recorder by done. done.
Qed.

(** C11: whatever the events, a session on the recording client in a
    server process leaves a log that is empty (initialization failed) or
    starts with the [init] call, and no later call is an [init]: the SDK
    is configured at most once, before anything else. *)
Theorem session_init_once rt pc es tr w' r :
  rt_browser rt = false ->
  session rt pc es (World [] tr) = (w', r) ->
  (w_sdk w' = [] \/ exists cfg rest, w_sdk w' = CInit cfg :: rest /\
                                     Forall (fun c => is_init c = false) rest).
Proof.
  intros Hb.
  rewrite session_unfold.
  unfold mbind at 1, st_bind at 1.
  destruct (initialize_log rt (JObj [("config", p_config (countlyPlugin rt pc))]) [] tr Hb)
    as [[e ->]|[cfg ->]].
  - intros [= <- <-]. by left.
  - destruct (ani_run_events rt pc es [CInit cfg] tr) as (l & tr' & r' & E & F & _).
    cbn [app]. rewrite E. intros [= <- <-]. right. by exists cfg, l.
Qed.

(** C26: a configuration without a truthy [app_key] stops the session
    with the configuration error before any SDK call, whatever the
    client and the events. *)
Theorem session_no_app_key {S} `{!CountlyClient S} rt (pc app_key : jsval) es (w : world S) :
  get_prop pc "app_key" = inr app_key -> truthy app_key = false ->
  session rt pc es w = (w, inl (ErrorMsg "No app_key provided")).
Proof.
  intros Ha Hf.
  rewrite session_unfold.
  assert (Hp : p_config (countlyPlugin (S:=S) rt pc) = pc) by (destruct pc; done || discriminate Ha).
  rewrite Hp.
  assert (Hc : get_prop (JObj [("config", pc)]) "config" = inr pc) by reflexivity.
  pose proof (get_prop_inr_nullish _ _ _ Ha) as Hn.
  unfold mbind at 1, st_bind at 1. unfold initialize. run_reads. by rewrite Hf.
Qed.

(** ** Witnesses at concrete inputs *)

Lemma session_init_once_witness :
  let w' := World [CInit (JObj [("app_key", JStr "k"); ("server_url", JStr "https://c.example");
                                ("debug", JBool false)]);
                   CReportTrace (JObj [("type", JStr "network"); ("name", JUndefined);
                                       ("stz", JUndefined); ("etz", JUndefined);
                                       ("app_metrics", JUndefined)]);
                   CTrackErrors] None in
  w_sdk w' = [] \/ exists cfg rest, w_sdk w' = CInit cfg :: rest /\
                                    Forall (fun c => is_init c = false) rest.
Proof.
  intros w'.
  apply (session_init_once (Runtime false false)
           (JObj [("app_key", JStr "k"); ("server_url", JStr "https://c.example")])
           [EvReportTrace (JObj [("type", JStr "network")]); EvEnableErrorTracking] None w' (inr tt));
    [reflexivity|].
  vm_compute. reflexivity.
Defined.

Lemma session_no_app_key_witness :
  session (S := list countly_call) (Runtime false true) (JObj [("server_url", JStr "https://c.example")])
    [EvTrack (JObj [("eventName", JStr "signup")])] (World [] None) =
  (World [] None, inl (ErrorMsg "No app_key provided")).
Proof.
  apply (session_no_app_key (Runtime false true) (JObj [("server_url", JStr "https://c.example")])
           JUndefined); reflexivity.
Defined.
