(* ===== verification/Bounds.v ===== *)
(** * Bounds: how many SDK calls a session makes

    The plugin has no batching, no retry and no per-trait call: every
    handler makes at most one SDK call, except [identify], which makes at
    most two ([change_id] and [user_details]), whatever the traits.  The
    bounds are proved with the counting rules of [Calls]
    ([calls_within]); the theorem of this file bounds a whole host
    session of [n] events by [2 n + 1] calls, in every runtime and for
    every event, valid or not. *)

From S2P Require Import Prelude JsValue Vendor Calls Handlers Identify Plugin.

Local Open Scope list_scope.

Section HandlerBounds.
Variable rt : runtime.

Lemma within_assign_trait k : calls_within 0 (assign_trait rt k).
Proof.
  apply within_nil. intros log tr. unfold assign_trait. cbn.
  destruct tr; [|destruct (rt_strict rt)]; eauto.
Qed.

(** The loop makes no SDK call, whatever the number of traits. *)
Lemma within_identify_loop traits ks u : calls_within 0 (identify_loop rt traits ks u).
Proof.
  revert u. induction ks as [|k ks IH]; intros u; cbn [identify_loop]; [apply within_ret|].
  apply within_bind0; [|done]. unfold identify_step. eauto 15 using within_assign_trait with within.
Qed.

Lemma within_identify a : calls_within 2 (identify rt a).
Proof.
  unfold identify. do 3 (apply within_bind0; [apply within_get|intros ?]).
  apply (within_bind 1 1); [apply within_if; [apply within_countly|apply within_ret]|intros _].
  eauto using within_identify_loop with within.
Qed.

Lemma within_dispatch pc e : calls_within 2 (dispatch (countlyPlugin rt pc) e).
Proof.
  destruct e; cbn [dispatch countlyPlugin p_page p_track p_identify p_enableErrorTracking
                     p_enableSessionTracking p_reportTrace];
    try apply within_identify; apply (within_weaken 1); [lia| |lia| |lia| |lia| |lia|];
    unfold page, track, enableErrorTracking, enableSessionTracking, reportTrace;
    eauto 10 with within.
Qed.

Lemma within_run_events pc es : calls_within (2 * length es) (run_events (countlyPlugin rt pc) es).
Proof.
  induction es as [|e es IH]; cbn [run_events length]; [apply within_ret|].
  apply (within_weaken (2 + 2 * length es)); [lia|].
  apply within_bind; [apply within_dispatch|done].
Qed.
End HandlerBounds.

(** C14: a host session of [n] events makes at most [2 n + 1] SDK calls:
    one [init] and at most two calls per event, in every runtime and
    for every configuration and event, valid or not; on the recording
    client the log only grows, by at most that many calls. *)
Theorem session_calls_bound rt pc es log tr w' r :
  session rt pc es (World log tr) = (w', r) ->
  exists l, w_sdk w' = log ++ l /\ length l <= 1 + 2 * length es.
Proof.
  intros E.
  assert (Hs : calls_within (1 + 2 * length es) (session rt pc es)).
  { rewrite session_unfold.
    apply within_bind; [unfold initialize; eauto 20 with within|intros _; apply within_run_events]. }
  destruct (Hs log tr) as (l & tr' & r' & E' & Hl). rewrite E in E'. injection E' as -> _.
  by exists l.
Qed.

(** ** Witness *)

Lemma session_calls_bound_witness :
  exists l, w_sdk (session (Runtime false false)
                     (JObj [("app_key", JStr "k"); ("server_url", JStr "https://c.example")])
                     [EvIdentify (JObj [("payload", JObj [("userId", JStr "u1");
                                                         ("traits", JArr [JStr "a"; JStr "b"])])])]
                     (World [] None)).1 = [] ++ l /\ length l <= 1 + 2 * 1.
Proof.
  apply (session_calls_bound (Runtime false false)
           (JObj [("app_key", JStr "k"); ("server_url", JStr "https://c.example")])
           [EvIdentify (JObj [("payload", JObj [("userId", JStr "u1");
                                               ("traits", JArr [JStr "a"; JStr "b"])])])] [] None
           _ (session (Runtime false false)
                (JObj [("app_key", JStr "k"); ("server_url", JStr "https://c.example")])
                [EvIdentify (JObj [("payload", JObj [("userId", JStr "u1");
                                                    ("traits", JArr [JStr "a"; JStr "b"])])])]
                (World [] None)).2).
  apply surjective_pairing.
Defined.
