(* ===== verification/Replay.v ===== *)
(** * Replay: every SDK client sees the recorder's log

    The handlers never look at what an SDK call returns: a call either
    completes or throws.  So what a handler does against any client is
    determined by the calls it makes against the recording client: the
    client receives that log in order, [replay], and the handler stops
    at the first call the client throws on, with the client's exception.
    [replays m] states this of a computation [m] written against an
    arbitrary client; it is closed under the monad's operations and the
    SDK call, so it holds of every handler and of a whole host session
    ([session_replay]), which is the refinement of every client by the
    recording client that the spec's design note relies on when it tests
    the plugin with a recording stub. *)

From S2P Require Import Prelude JsValue Vendor Handlers Identify Plugin.

Local Open Scope string_scope.
Local Open Scope list_scope.

(** A client receiving [l] in order, stopping at the first call it throws
    on: its final state and the value thrown, if any. *)
Fixpoint replay {S} `{!CountlyClient S} (l : list countly_call) (s : S) : S * option jsval :=
  match l with
  | [] => (s, None)
  | c :: l' =>
      match countly_handle c s with
      | (s', None) => replay l' s'
      | (s', Some v) => (s', Some v)
      end
  end.

(** A computation written against an arbitrary client. *)
Definition prog (A : Type) : Type := forall S, CountlyClient S -> M S A.

(** What a client run of [m] from [World s tr] gives, when the recorder
    run logged [l] and ended in the trait [tr'] with result [r]. *)
Definition replay_outcome {S} `{!CountlyClient S} {A} (l : list countly_call)
    (tr' : option jsval) (r : exn + A) (s : S) (res : world S * (exn + A)) : Prop :=
  match replay l s with
  | (s', None) => res = (World s' tr', r)
  | (s', Some v) => exists tr'', res = (World s' tr'', inl (Upstream v))
  end.

Definition replays {A} (m : prog A) : Prop :=
  forall log tr, exists l tr' r,
    m _ recorder (World log tr) = (World (log ++ l) tr', r) /\
    forall S (C : CountlyClient S) s, replay_outcome l tr' r s (m S C (World s tr)).

(** ** Replay of a concatenation *)

Lemma replay_app {S} `{!CountlyClient S} l1 l2 s :
  replay (l1 ++ l2) s =
    match replay l1 s with (s', None) => replay l2 s' | (s', Some v) => (s', Some v) end.
Proof.
  revert s. induction l1 as [|c l1 IH]; intros s; [done|].
  cbn. destruct (countly_handle c s) as [s' [v|]]; [done|apply IH].
Qed.

(** ** Closure of [replays] *)

Section Closure.
Variable rt : runtime.

Lemma replays_ret {A} (a : A) : replays (fun S C => mret a).
Proof.
  intros log tr. exists [], tr, (inr a). rewrite app_nil_r. split; [done|].
  intros S C s. done.
Qed.

Lemma replays_throw {A} e : replays (fun S C => (st_throw e : M S A)).
Proof.
  intros log tr. exists [], tr, (inl e). rewrite app_nil_r. split; [done|].
  intros S C s. done.
Qed.

Lemma replays_get v k : replays (fun S C => get v k).
Proof.
  intros log tr. exists [], tr, (get_prop v k). rewrite app_nil_r. split; [done|].
  intros S C s. done.
Qed.

Lemma replays_countly c : replays (fun S C => countly rt c).
Proof.
  intros log tr. unfold countly. destruct (rt_browser rt).
  - exists [], tr, (inl TypeError). rewrite app_nil_r. split; [done|]. intros S C s. done.
  - exists [c], tr, (inr tt). split; [done|]. intros S C s.
    unfold replay_outcome. cbn. destruct (countly_handle c s) as [s' [v|]]; [by exists tr|done].
Qed.

Lemma replays_assign_trait k : replays (fun S C => assign_trait rt k).
Proof.
  intros log tr. unfold assign_trait. cbn.
  destruct tr as [x|]; [|destruct (rt_strict rt)];
    eexists [], _, _; (split; [by rewrite app_nil_r|intros S C s; done]).
Qed.

Lemma replays_if {A} (b : bool) (m1 m2 : prog A) :
  replays m1 -> replays m2 -> replays (fun S C => if b then m1 S C else m2 S C).
Proof. by destruct b. Qed.

Lemma replays_bind {A B} (m : prog A) (f : forall S, CountlyClient S -> A -> M S B) :
  replays m -> (forall a, replays (fun S C => f S C a)) ->
  replays (fun S C => m S C ≫= f S C).
Proof.
  intros Hm Hf log tr. destruct (Hm log tr) as (l1 & tr1 & r1 & E1 & R1).
  unfold mbind, st_bind. rewrite E1. destruct r1 as [e|a].
  - exists l1, tr1, (inl e). split; [done|]. intros S C s. specialize (R1 S C s).
    unfold replay_outcome in *. destruct (replay l1 s) as [s' [v|]].
    + destruct R1 as [tr'' ->]. by exists tr''.
    + by rewrite R1.
  - destruct (Hf a (log ++ l1) tr1) as (l2 & tr2 & r2 & E2 & R2).
    exists (l1 ++ l2), tr2, r2. rewrite E2, app_assoc. split; [done|].
    intros S C s. specialize (R1 S C s). unfold replay_outcome in *. rewrite replay_app.
    destruct (replay l1 s) as [s1 [v|]].
    + destruct R1 as [tr'' ->]. by exists tr''.
    + rewrite R1. apply R2.
Qed.
End Closure.

(** A computation that replays behaves, on every client, as the log of
    its recorder run from the empty log. *)
Lemma replays_from_log {A} (m : prog A) tr l tr' r :
  replays m -> m _ recorder (World [] tr) = (World l tr', r) ->
  forall S (C : CountlyClient S) s, replay_outcome l tr' r s (m S C (World s tr)).
Proof.
  intros Hm Hrec. destruct (Hm [] tr) as (l1 & tr1 & r1 & E & R).
  rewrite Hrec in E. injection E as -> -> ->. apply R.
Qed.

Create HintDb replay discriminated.
#[export] Hint Resolve replays_ret replays_throw replays_get replays_countly
  replays_assign_trait replays_if replays_bind : replay.

(** ** Every handler replays *)

Section Handlers_replay.
Variable rt : runtime.

Lemma replays_initialize a : replays (fun S C => initialize rt a).
Proof. unfold initialize. eauto 20 with replay. Qed.

Lemma replays_page a : replays (fun S C => page rt a).
Proof. unfold page. eauto 10 with replay. Qed.

Lemma replays_track a : replays (fun S C => track rt a).
Proof. unfold track. eauto 10 with replay. Qed.

Lemma replays_reportTrace a : replays (fun S C => reportTrace rt a).
Proof. unfold reportTrace. eauto 15 with replay. Qed.

Lemma replays_identify_loop traits ks u : replays (fun S C => identify_loop rt traits ks u).
Proof.
  revert u. induction ks as [|k ks IH]; intros u; cbn; [apply replays_ret|].
  apply (replays_bind (fun S C => identify_step rt traits u k)); [|done].
  unfold identify_step. eauto 15 with replay.
Qed.

Lemma replays_identify a : replays (fun S C => identify rt a).
Proof. unfold identify. eauto 20 using replays_identify_loop with replay. Qed.
End Handlers_replay.

Lemma replays_run_events rt pc es :
  replays (fun S C => run_events (countlyPlugin rt pc) es).
Proof.
  induction es as [|e es IH]; cbn [run_events]; [apply replays_ret|].
  apply (replays_bind (fun S C => dispatch (countlyPlugin rt pc) e)); [|intros; apply IH].
  destruct e; cbn [dispatch countlyPlugin p_page p_track p_identify p_enableErrorTracking
                     p_enableSessionTracking p_reportTrace];
    eauto using replays_page, replays_track, replays_identify, replays_reportTrace with replay.
Qed.

Lemma replays_session rt pc es : replays (fun S C => session rt pc es).
Proof.
  apply (replays_bind (fun S C => initialize rt (JObj [("config", p_config (countlyPlugin rt pc))]))).
  - apply replays_initialize.
  - intros _. apply replays_run_events.
Qed.

(** ** The refinement *)

(** C4: whatever the client, a host session behaves as the recorder's
    log replayed: if on the recording client the session logs [log'],
    ends with the global [trait] at [tr'] and result [r], then against
    any client [C] from state [s] the client receives [log'] in order;
    if it throws on none of them, the session ends in the client's final
    state with the same [trait] and result, and if it throws [v] on one,
    the session stops right there with [Upstream v] and no later call is
    made. *)
Theorem session_replay rt pc es tr log' tr' r :
  session (S := list countly_call) rt pc es (World [] tr) = (World log' tr', r) ->
  forall S (C : CountlyClient S) s, replay_outcome log' tr' r s (session rt pc es (World s tr)).
Proof.
  intros Hrec. apply (replays_from_log (fun S C => @session S C rt pc es)); [apply replays_session|exact Hrec].
Qed.

(** ** Witness *)

Lemma session_replay_witness :
  @replay_outcome _ (thrower (fun c => match c with CAddEvent _ => true | _ => false end)
                             (JStr "down")) unit
    [CInit (JObj [("app_key", JStr "k"); ("server_url", JStr "https://c.example");
                  ("debug", JBool false)]);
     CAddEvent (JObj [("key", JStr "signup"); ("count", JNum 1); ("segmentation", JUndefined)]);
     CTrackErrors] None (inr tt) []
    (@session _ (thrower (fun c => match c with CAddEvent _ => true | _ => false end)
                         (JStr "down"))
       (Runtime false true) (JObj [("app_key", JStr "k"); ("server_url", JStr "https://c.example")])
       [EvTrack (JObj [("eventName", JStr "signup")]); EvEnableErrorTracking] (World [] None)).
Proof.
  apply (session_replay (Runtime false true)
           (JObj [("app_key", JStr "k"); ("server_url", JStr "https://c.example")])
           [EvTrack (JObj [("eventName", JStr "signup")]); EvEnableErrorTracking] None).
  vm_compute. reflexivity.
Defined.
