(* ===== verification/Session.v ===== *)
(** * Session: a whole session against the list of calls the spec asks for

    The spec's section 4 says, operation by operation, which SDK call the
    adapter makes; [event_calls] is that list for one host event, with
    the user object the spec asks for ([Intended.user_intended]: the
    eight field names at the top level under their own name, the other
    traits under [custom]), and [init_call] the [init] call with the
    spec's [debug ?? false] ([Config.init_options_spec]).  [config_ok]
    and [event_ok] are the data model of the spec's section 3 as boolean
    checks, restricted to the inputs where the code's choices agree with
    the spec's: a [debug] that is a boolean or absent (where [||] and
    [??] agree), and traits none of which is a field name or a key the
    code's [allowedProps[trait]] read recognises (where the two
    classifications agree).  The theorem composes the handlers: on a
    server where the assignment to the global [trait] succeeds, such a
    session completes and any client receives exactly the spec's calls,
    in order. *)

From S2P Require Import Prelude JsValue Vendor Calls Handlers Identify UserObject Intended Config Plugin Replay.

Local Open Scope string_scope.
Local Open Scope list_scope.

(** ** The spec's calls *)

(** The configuration of section 3: a truthy [app_key] and
    [server_url], and a boolean or absent [debug]. *)
Definition config_ok (pc : jsval) : bool :=
  truthy (read pc "app_key") && truthy (read pc "server_url") &&
  (String.eqb (typeof_ (read pc "debug")) "boolean" || String.eqb (typeof_ (read pc "debug")) "undefined").

(** [init] with [{app_key, server_url, debug: debug ?? false}]. *)
Definition init_call (pc : jsval) : countly_call :=
  CInit (init_options_spec (read pc "app_key") (read pc "server_url") (read pc "debug")).

Definition event_calls (e : host_event) : list countly_call :=
  match e with
  | EvPage a => [CTrackView (read (read (read a "payload") "properties") "path")]
  | EvTrack a => [CAddEvent (event_of (read a "eventName") (read a "payload"))]
  | EvIdentify a =>
      let p := read a "payload" in
      change_calls (read p "userId") ++ [CUserDetails (user_intended (read p "traits"))]
  | EvEnableErrorTracking => [CTrackErrors]
  | EvEnableSessionTracking => [CTrackSessions]
  | EvReportTrace p =>
      [CReportTrace (trace_of (read p "type") (read p "name") (read p "stz") (read p "etz")
                              (read p "app_metrics"))]
  end.

(** The events of section 3: what a handler destructures is an object
    (not [undefined] or [null]); [for-in] enumerates each trait once, and
    no trait is a field name or a key the code recognises. *)
Definition event_ok (e : host_event) : bool :=
  match e with
  | EvPage a =>
      negb (nullish a) && negb (nullish (read a "payload")) &&
      negb (nullish (read (read a "payload") "properties"))
  | EvTrack a => negb (nullish a)
  | EvIdentify a =>
      let traits := read (read a "payload") "traits" in
      negb (nullish a) && negb (nullish (read a "payload")) &&
      bool_decide (NoDup (for_in_keys traits)) &&
      forallb (fun k => negb (code_known k) && negb (spec_known k)) (for_in_keys traits)
  | EvEnableErrorTracking | EvEnableSessionTracking => true
  | EvReportTrace p => negb (nullish p)
  end.

(** ** One event *)

Section Events.
Variable rt : runtime.
Hypothesis Hserver : rt_browser rt = false.

(** Rewrite every read of a value known not to be nullish to its
    [read]. *)
Ltac reads :=
  repeat (cbn -[get_prop read truthy countly];
          match goal with
          | H : nullish ?v = false |- context [get_prop ?v ?k] => rewrite (get_prop_read v k H)
          end).

Lemma identify_event_run arg log tr :
  can_assign rt tr -> nullish arg = false -> nullish (read arg "payload") = false ->
  NoDup (for_in_keys (read (read arg "payload") "traits")) ->
  Forall (fun k => code_known k = false /\ spec_known k = false)
         (for_in_keys (read (read arg "payload") "traits")) ->
  exists tr', identify rt arg (World log tr) = (World (log ++ event_calls (EvIdentify arg)) tr', inr tt)
              /\ can_assign rt tr'.
Proof.
  intros Ha H1 H2 Hnd Hk. cbn [event_calls]. rewrite <-(proj2 (user_spec_intended_iff _) Hk).
  exists (last_trait tr (for_in_keys (read (read arg "payload") "traits"))). split.
  - apply (identify_user_spec_run rt arg (read arg "payload")); by try apply get_prop_read.
  - unfold last_trait. destruct (last _); [right; eauto|done].
Qed.

Lemma dispatch_run pc e log tr :
  can_assign rt tr -> event_ok e = true ->
  exists tr', dispatch (countlyPlugin rt pc) e (World log tr) =
                (World (log ++ event_calls e) tr', inr tt) /\ can_assign rt tr'.
Proof.
  intros Ha He. destruct e; cbn [dispatch countlyPlugin p_page p_track p_identify
                                  p_enableErrorTracking p_enableSessionTracking p_reportTrace];
    cbn [event_ok] in He; rewrite ?andb_true_iff, ?negb_true_iff in He.
  - destruct He as [[H1 H2] H3]. exists tr. unfold page, mbind, st_bind, get. reads.
    by rewrite countly_recorder.
  - exists tr. unfold track, mbind, st_bind, get. reads. by rewrite countly_recorder.
  - destruct He as [[[H1 H2] H3] H4]. rewrite bool_decide_eq_true in H3.
    apply identify_event_run; try done. rewrite forallb_forall in H4. apply Forall_forall.
    intros k Hk%list_elem_of_In. apply H4, andb_true_iff in Hk as [Hc Hs]. by rewrite negb_true_iff in Hc, Hs.
  - exists tr. unfold enableErrorTracking. by rewrite countly_recorder.
  - exists tr. unfold enableSessionTracking. by rewrite countly_recorder.
  - exists tr. unfold reportTrace, mbind, st_bind, get. reads. by rewrite countly_recorder.
Qed.

Lemma run_events_run pc es log tr :
  can_assign rt tr -> forallb event_ok es = true ->
  exists tr', run_events (countlyPlugin rt pc) es (World log tr) =
                (World (log ++ concat (map event_calls es)) tr', inr tt).
Proof.
  revert log tr. induction es as [|e es IH]; intros log tr Ha Hes.
  { exists tr. by rewrite app_nil_r. }
  cbn [forallb] in Hes. apply andb_true_iff in Hes as [He Hes].
  destruct (dispatch_run pc e log tr Ha He) as (tr1 & E1 & Ha1).
  cbn [run_events]. unfold mbind at 1, st_bind at 1. rewrite E1.
  destruct (IH (log ++ event_calls e) tr1 Ha1 Hes) as [tr' E]. exists tr'.
  rewrite E. cbn [map concat]. by rewrite app_assoc.
Qed.

Lemma initialize_run pc log tr :
  config_ok pc = true ->
  initialize rt (JObj [("config", p_config (countlyPlugin rt pc))]) (World log tr) =
    (World (log ++ [init_call pc]) tr, inr tt).
Proof.
  unfold config_ok. rewrite !andb_true_iff, orb_true_iff, !String.eqb_eq. intros [[Ha Hs] Hd].
  assert (Hp : p_config (countlyPlugin rt pc) = pc) by (destruct pc; done).
  assert (Hn : nullish pc = false) by (destruct pc; done).
  assert (Hc : get_prop (JObj [("config", pc)]) "config" = inr pc) by reflexivity.
  rewrite Hp. unfold initialize, mbind, st_bind, get. rewrite Hc.
  reads. rewrite Ha, Hs. cbn -[countly]. rewrite countly_recorder by done.
  unfold init_call, init_options, init_options_spec. rewrite js_or_nullish_or_debug; [done|].
  destruct Hd as [Hd|Hd]; destruct (read pc "debug"); try discriminate; eauto.
Qed.
End Events.

(** ** The session *)

Lemma session_run rt pc es tr :
  rt_browser rt = false -> can_assign rt tr -> config_ok pc = true -> forallb event_ok es = true ->
  exists tr', session rt pc es (World [] tr) =
                (World (init_call pc :: concat (map event_calls es)) tr', inr tt).
Proof.
  intros Hb Ha Hc Hes.
  rewrite session_unfold.
  unfold mbind at 1, st_bind at 1. rewrite initialize_run by done.
  exact (run_events_run rt Hb pc es [init_call pc] tr Ha Hes).
Qed.

(** C3: a session refines the spec's list of calls on the inputs where
    the code's choices agree with the spec's: on a server where the
    assignment to the global [trait] succeeds (sloppy code, or a global
    [trait] exists), with a configuration that has a truthy [app_key]
    and [server_url] and a boolean or absent [debug], and events whose
    destructured objects are present and whose traits are enumerated
    once each and include no field name and no key the code recognises,
    any client receives the [init] call with the spec's options
    ([debug ?? false]) and then, in order, the calls section 4 of the
    spec lists for each event, [user_details] with the spec's user
    object; the session completes with the client's final state, or, if
    the client throws on one of these calls, stops right there with its
    exception. *)
Theorem session_refines_calls rt pc es tr :
  rt_browser rt = false -> can_assign rt tr -> config_ok pc = true -> forallb event_ok es = true ->
  exists tr', forall S (C : CountlyClient S) s,
    replay_outcome (init_call pc :: concat (map event_calls es)) tr' (inr tt) s
                   (session rt pc es (World s tr)).
Proof.
  intros Hb Ha Hc Hes. destruct (session_run rt pc es tr Hb Ha Hc Hes) as [tr' Hrec].
  exists tr'. apply (replays_from_log (fun S C => @session S C rt pc es)); [apply replays_session|exact Hrec].
Qed.

(** ** Witness: the events of the spec's section 8, in one session, with
    the identify traits [{plan, company}] (its [{email, plan}] is where
    the code departs from the spec, [Identify.identify_plain_traits]) *)

Lemma session_refines_calls_witness :
  let pc := JObj [("app_key", JStr "k"); ("server_url", JStr "https://c.example")] in
  let es :=
    [EvPage (JObj [("payload", JObj [("properties", JObj [("path", JStr "/home")])])]);
     EvTrack (JObj [("eventName", JStr "signup"); ("payload", JObj [("plan", JStr "pro")])]);
     EvIdentify (JObj [("payload", JObj [("userId", JStr "u1");
                                        ("traits", JObj [("plan", JStr "pro");
                                                         ("company", JStr "acme")])])]);
     EvIdentify (JObj [("payload", JObj [("traits", JUndefined)])]);
     EvReportTrace (JObj [("type", JStr "network"); ("name", JStr "api"); ("stz", JNum 100);
                          ("etz", JNum 150); ("app_metrics", JObj [("bytes", JNum 10)])])] in
  exists tr', forall S (C : CountlyClient S) s,
    replay_outcome (init_call pc :: concat (map event_calls es)) tr' (inr tt) s
                   (session (Runtime false false) pc es (World s None)).
Proof.
  intros pc es. apply session_refines_calls; [reflexivity|by left|vm_compute; reflexivity..].
Defined.
