(* ===== verification/Loop.v ===== *)
(** * Loop: the [for-in] loop of [identify] as a transition system

    Lines 66-73 of [node.js], one transition per iteration and per branch
    of its body, in the order the statements evaluate: the assignment of
    the key to the undeclared [trait] (a [ReferenceError] in strict code
    with no such global), the read [allowedProps[trait]], then either
    [userObject[allowedProps[trait]] = traits[trait]] or
    [userObject.custom[trait] = traits[trait]], each read able to throw.
    A configuration is a running loop (the keys left, [userObject], the
    global [trait]) or a final one (the loop left normally or by an
    exception).

    The theorem is an invariant by induction on the runs: from
    [userObject = { custom: {} }] every reachable configuration, the
    intermediate ones included, holds an object of the shape [user_wf],
    and the only exception the loop can reach is the [ReferenceError] of
    strict code. *)

From S2P Require Import Prelude JsValue Vendor Handlers Identify UserObject.

Local Open Scope string_scope.
Local Open Scope list_scope.

(** The state of the loop. *)
Inductive loop_conf : Type :=
| Running (keys : list string) (userObject : jsval) (trait : option jsval)
| Done (userObject : jsval) (trait : option jsval)
| Failed (e : exn) (trait : option jsval).

Section Step.
Variables (rt : runtime) (traits : jsval).

(** One transition of [for (trait in traits) {...}]. *)
Inductive loop_step : loop_conf -> loop_conf -> Prop :=
| step_exit u tr :
    loop_step (Running [] u tr) (Done u tr)
| step_reference_error k ks u :
    rt_strict rt = true ->
    loop_step (Running (k :: ks) u None) (Failed (ReferenceError "trait") None)
| step_known k ks u tr allowed v :
    can_assign rt tr -> get_prop allowedProps k = inr allowed -> truthy allowed = true ->
    get_prop traits k = inr v ->
    loop_step (Running (k :: ks) u tr)
              (Running ks (obj_set u (to_string allowed) v) (Some (JStr k)))
| step_known_error k ks u tr allowed e :
    can_assign rt tr -> get_prop allowedProps k = inr allowed -> truthy allowed = true ->
    get_prop traits k = inl e ->
    loop_step (Running (k :: ks) u tr) (Failed e (Some (JStr k)))
| step_custom k ks u tr allowed custom v :
    can_assign rt tr -> get_prop allowedProps k = inr allowed -> truthy allowed = false ->
    get_prop u "custom" = inr custom -> get_prop traits k = inr v ->
    loop_step (Running (k :: ks) u tr)
              (Running ks (obj_set u "custom" (obj_set custom k v)) (Some (JStr k)))
| step_custom_error k ks u tr allowed e :
    can_assign rt tr -> get_prop allowedProps k = inr allowed -> truthy allowed = false ->
    get_prop u "custom" = inl e ->
    loop_step (Running (k :: ks) u tr) (Failed e (Some (JStr k)))
| step_custom_value_error k ks u tr allowed custom e :
    can_assign rt tr -> get_prop allowedProps k = inr allowed -> truthy allowed = false ->
    get_prop u "custom" = inr custom -> get_prop traits k = inl e ->
    loop_step (Running (k :: ks) u tr) (Failed e (Some (JStr k))).
End Step.

(** The invariant of the loop from [userObject = { custom: {} }]. *)
Definition conf_inv (c : loop_conf) : Prop :=
  match c with
  | Running _ u _ | Done u _ => user_wf u = true
  | Failed e _ => e = ReferenceError "trait"
  end.

(** ** The transitions *)

Lemma get_allowedProps k : get_prop allowedProps k = inr (array_get (map JStr allowed_names) k).
Proof. reflexivity. Qed.

Lemma user_wf_nullish u : user_wf u = true -> nullish u = false.
Proof. by destruct u. Qed.

Section Props.
Variables (rt : runtime) (traits : jsval).

(** Every reachable configuration keeps the invariant, once the traits
    can be read. *)
Lemma loop_step_inv c c' : nullish traits = false -> loop_step rt traits c c' -> conf_inv c -> conf_inv c'.
Proof.
  intros Hn Hs. destruct Hs as [| |k ks u tr allowed v _ Ea Ht _|k ks u tr allowed e _ _ _ Ev
                                |k ks u tr allowed custom v _ _ _ Ec _|k ks u tr allowed e _ _ _ Ec
                                |k ks u tr allowed custom e _ _ _ _ Ev];
    cbn [conf_inv]; intros Hu; try done.
  - rewrite get_allowedProps in Ea. injection Ea as <-. by apply user_wf_known.
  - by rewrite get_prop_read in Ev.
  - rewrite get_prop_read in Ec by (by apply user_wf_nullish). injection Ec as <-. by apply user_wf_custom.
  - by rewrite get_prop_read in Ec by (by apply user_wf_nullish).
  - by rewrite get_prop_read in Ev.
Qed.
End Props.

(** ** The theorem *)

(** C27: an invariant of the loop, by induction on its runs: from
    [userObject = { custom: {} }] and traits that can be read (not
    [undefined] or [null]), every configuration reached, running or
    final, holds an object of the shape [user_wf], and the only exception
    the loop can end with is the [ReferenceError] of strict code. *)
Theorem identify_loop_invariant rt traits ks tr c :
  nullish traits = false ->
  rtc (loop_step rt traits) (Running ks (JObj [("custom", JObj [])]) tr) c -> conf_inv c.
Proof.
  intros Hn Hr. assert (H0 : conf_inv (Running ks (JObj [("custom", JObj [])]) tr)) by apply user_wf_initial.
  revert H0. induction Hr as [|c1 c2 c3 Hs _ IH]; intros H0; [done|].
  apply IH. by apply (loop_step_inv rt traits c1 c2).
Qed.

(** ** Witness: one custom trait, [{ plan: "pro" }], in sloppy code *)

Lemma identify_loop_invariant_witness :
  conf_inv (Running [] (obj_set (JObj [("custom", JObj [])]) "custom" (obj_set (JObj []) "plan" (JStr "pro")))
                    (Some (JStr "plan"))).
Proof.
  apply (identify_loop_invariant (Runtime false false) (JObj [("plan", JStr "pro")]) ["plan"] None);
    [reflexivity|].
  apply rtc_once. eapply step_custom; [by left|reflexivity..].
Defined.
