(* ===== verification/Host.v ===== *)
(** * Host: the plugin's lifecycle in the host framework

    The host dispatch framework is not code of this repository; the spec
    fixes how it uses a plugin (sections 3, 5 and 7): it initializes the
    plugin once, with the plugin's [config]; a configuration error aborts
    the plugin for good; after a successful initialization it dispatches
    events to the handlers one at a time, in any order and any number,
    and an exception a handler throws goes back to the caller of that
    event without stopping the plugin.  [host_step] is that lifecycle as a
    labelled transition system over the plugin's phase and the world, one
    transition per host action with the outcome the caller sees; the
    handlers it runs are the code's.  Unlike [Plugin.session], a run may
    go on after an event failed.

    The theorem is the invariant of the spec's section 3, by induction on
    the runs: on the recording client in a server process, in every
    reachable state the SDK has received nothing until the plugin is
    ready, and from then on its log starts with the one [init] call,
    which is never repeated. *)

From S2P Require Import Prelude JsValue Vendor Calls Handlers Identify UserObject Plugin.

Local Open Scope string_scope.
Local Open Scope list_scope.

(** The plugin's phase in the host. *)
Inductive phase : Type :=
| Registered   (** loaded, [initialize] not yet run *)
| Ready        (** [initialize] completed *)
| Aborted.     (** [initialize] threw: the plugin is not used again *)

Record host_state (S : Type) : Type := HostState { h_phase : phase; h_world : world S }.
Arguments HostState {S}. Arguments h_phase {S}. Arguments h_world {S}.

Inductive host_action : Type :=
| HInitialize
| HDispatch (e : host_event).

Section Lifecycle.
Context {S : Type} `{!CountlyClient S} (rt : runtime) (pluginConfig : jsval).

(** One host action and the outcome its caller sees. *)
Inductive host_step : host_state S -> host_action -> exn + unit -> host_state S -> Prop :=
| host_init_ok w w' :
    p_initialize (countlyPlugin rt pluginConfig)
      (JObj [("config", p_config (countlyPlugin rt pluginConfig))]) w = (w', inr tt) ->
    host_step (HostState Registered w) HInitialize (inr tt) (HostState Ready w')
| host_init_error w w' e :
    p_initialize (countlyPlugin rt pluginConfig)
      (JObj [("config", p_config (countlyPlugin rt pluginConfig))]) w = (w', inl e) ->
    host_step (HostState Registered w) HInitialize (inl e) (HostState Aborted w')
| host_dispatch w w' ev r :
    dispatch (countlyPlugin rt pluginConfig) ev w = (w', r) ->
    host_step (HostState Ready w) (HDispatch ev) r (HostState Ready w').

(** The states a sequence of host actions leads to. *)
Definition host_reach : relation (host_state S) :=
  rtc (fun h h' => exists a r, host_step h a r h').
End Lifecycle.

(** The invariant on the recording client. *)
Definition init_first (h : host_state (list countly_call)) : Prop :=
  match h_phase h with
  | Ready => exists cfg rest, w_sdk (h_world h) = CInit cfg :: rest /\
                              Forall (fun c => is_init c = false) rest
  | _ => w_sdk (h_world h) = []
  end.

Lemma host_step_init_first rt pc h a r h' :
  rt_browser rt = false -> host_step rt pc h a r h' -> init_first h -> init_first h'.
Proof.
  intros Hb Hs. destruct Hs as [[log tr] w' Hi|[log tr] w' e Hi|[log tr] w' ev r Hd];
    cbn [init_first h_phase h_world w_sdk].
  - intros ->. destruct (initialize_log rt (JObj [("config", p_config (countlyPlugin rt pc))]) [] tr Hb)
      as [[e' E]|[cfg E]]; cbn [p_initialize countlyPlugin] in Hi; rewrite E in Hi; [discriminate|].
    injection Hi as <-. by exists cfg, [].
  - intros ->. destruct (initialize_log rt (JObj [("config", p_config (countlyPlugin rt pc))]) [] tr Hb)
      as [[e' E]|[cfg E]]; cbn [p_initialize countlyPlugin] in Hi; rewrite E in Hi; [|discriminate].
    by injection Hi as <-.
  - intros (cfg & rest & -> & F).
    destruct (ani_dispatch rt pc ev (CInit cfg :: rest) tr) as (l & tr' & r' & E & Fl & _).
    rewrite Hd in E. injection E as -> _. exists cfg, (rest ++ l). split; [done|by apply Forall_app].
Qed.

(** C30: the spec's invariant on the vendor client (section 3), for
    every interleaving of host actions: on the recording client in a
    server process, starting from a registered plugin and an empty log,
    in every reachable state the log is empty while the plugin is not
    ready (not yet initialized, or aborted by a configuration error), and
    once it is ready the log starts with the one [init] call and no later
    call is an [init], whatever events were dispatched and whether they
    threw. *)
Theorem host_init_first rt pc tr h :
  rt_browser rt = false ->
  host_reach rt pc (HostState Registered (World [] tr)) h -> init_first h.
Proof.
  intros Hb Hr. assert (H0 : init_first (HostState Registered (World [] tr))) by done.
  revert H0. induction Hr as [|h1 h2 h3 (a & r & Hs) _ IH]; intros H0; [done|].
  apply IH. by apply (host_step_init_first rt pc h1 a r h2).
Qed.

(** ** Witness: initialize, an event that throws, then one that does not *)

Lemma host_init_first_witness :
  init_first (HostState Ready
    (World [CInit (init_options (JStr "k") (JStr "https://c.example") JUndefined); CTrackErrors] None)).
Proof.
  apply (host_init_first (Runtime false true) (JObj [("app_key", JStr "k"); ("server_url", JStr "https://c.example")])
           None); [reflexivity|].
  eapply rtc_l; [do 2 eexists; apply host_init_ok; reflexivity|].
  eapply rtc_l; [do 2 eexists; apply host_dispatch with (ev := EvPage JUndefined); reflexivity|].
  eapply rtc_l; [do 2 eexists; apply host_dispatch with (ev := EvEnableErrorTracking); reflexivity|].
  apply rtc_refl.
Defined.
